(** * teeny: a shallow embedding of the static-site build pipeline (cli.js)

    The development follows the JavaScript source function by function:
    [processPage], [blogIndex], [processDirectory] of [cli.js], and the
    comment-thread rendering of the later variant of [blogIndex].

    - JavaScript values that front matter can hold are [jsval].
    - A parsed HTML document is a forest of [node]s with an optional doctype;
      a DOM node is addressed by its path from the document.
    - Effects (the collected-page array [blogPages], files written, console
      output) are threaded through the monad [M], whose results distinguish
      normal return, a thrown exception, [process.exit] and divergence. *)

From Stdlib Require Import ZArith String Ascii List Lia Permutation Sorted.
From stdpp Require Import base gmap strings list.

Set Warnings "-register-all".
Open Scope Z_scope.

(** ** JavaScript values *)

Inductive jsval :=
  | JUndefined
  | JNum (n : Z)
  | JStr (s : string).

Global Instance jsval_eq_dec : EqDecision jsval.
Proof. solve_decision. Defined.

(** Truthiness, as tested by [if (frontmatter.date)] and the like. *)
Definition truthy (v : jsval) : bool :=
  match v with
  | JUndefined => false
  | JNum n => negb (n =? 0)
  | JStr s => negb (String.eqb s "")
  end.

Definition digit_char (d : Z) : ascii :=
  ascii_of_nat (48 + Z.to_nat d).

(** Decimal digits of a non-negative integer, most significant first.  The
    fuel bounds the number of digits; [Z_to_string] supplies enough. *)
Fixpoint dec (fuel : nat) (n : Z) : string :=
  match fuel with
  | O => ""
  | S f =>
      if n <? 10 then String (digit_char n) ""
      else dec f (n / 10) +:+ String (digit_char (n mod 10)) ""
  end.

Definition Z_to_string (n : Z) : string :=
  if n <? 0 then "-" +:+ dec (S (Z.to_nat (Z.log2 (- n)))) (- n)
  else dec (S (Z.to_nat (Z.log2 n))) n.

(** [v.toString()] and the coercion in template literals. *)
Definition toString (v : jsval) : string :=
  match v with
  | JUndefined => "undefined"
  | JNum n => Z_to_string n
  | JStr s => s
  end.

Definition digit_val (c : ascii) : option Z :=
  let n := Z.of_nat (nat_of_ascii c) in
  if (48 <=? n) && (n <=? 57) then Some (n - 48) else None.

Fixpoint parse_digits (acc : option Z) (s : string) : option Z :=
  match s with
  | "" => acc
  | String c s' =>
      match digit_val c with
      | Some d => parse_digits (Some (10 * default 0 acc + d)) s'
      | None => acc
      end
  end.

(** [parseInt(s)]: the value of the longest prefix of decimal digits; [None]
    stands for NaN.  The white space and the sign that [parseInt] also skips
    do not occur in the two characters of a [YYYYMMDD] date it is given. *)
Definition parseInt (s : string) : option Z := parse_digits None s.

(** [Number(v)] as the subtraction in the sort comparator applies it;
    [None] is NaN.  Of the strings, the empty one and those made of decimal
    digits are converted. *)
Definition all_digits (s : string) : bool :=
  forallb (fun c => bool_decide (is_Some (digit_val c))) (list_ascii_of_string s).

Definition toNumber (v : jsval) : option Z :=
  match v with
  | JUndefined => None
  | JNum n => Some n
  | JStr "" => Some 0
  | JStr s => if all_digits s then parseInt s else None
  end.

(** ** Strings: the [String.prototype] methods the program calls *)

(** [s.slice(a, b)] and [s.slice(a)] for non-negative indices. *)
Definition slice (a b : nat) (s : string) : string := substring a (b - a) s.
Definition slice_from (a : nat) (s : string) : string :=
  substring a (String.length s - a) s.

Definition startsWith (s p : string) : bool := String.prefix p s.

(** [s.replace(pat, by)] with a string pattern: the first occurrence only. *)
Definition replace_first (pat by_ s : string) : string :=
  match index 0 pat s with
  | Some i =>
      substring 0 i s +:+ by_ +:+
      substring (i + String.length pat) (String.length s - (i + String.length pat)) s
  | None => s
  end.

(** [s.split(sep)] for a non-empty separator. *)
Fixpoint split_fuel (fuel : nat) (sep s : string) : list string :=
  match fuel with
  | O => [s]
  | S f =>
      match index 0 sep s with
      | Some i =>
          substring 0 i s ::
          split_fuel f sep
            (substring (i + String.length sep)
               (String.length s - (i + String.length sep)) s)
      | None => [s]
      end
  end.

Definition split (sep s : string) : list string :=
  split_fuel (String.length s) sep s.

(** [parts.join(sep)]. *)
Fixpoint join (sep : string) (parts : list string) : string :=
  match parts with
  | [] => ""
  | [p] => p
  | p :: rest => p +:+ sep +:+ join sep rest
  end.

(** ** The DOM

    A document as JSDOM parses it: an optional doctype and the nodes below
    the document (for a parsed HTML file, the single [html] element).  A node
    is addressed by its path: the index among the document's children, then
    the index among that node's children, and so on. *)

Inductive node :=
  | Text (s : string)
  | Elem (tag : string) (attrs : list (string * string)) (children : list node).

Record document := mkDocument {
  doctype : option string;
  nodes : list node
}.

Definition path := list nat.

Definition selector := string -> list (string * string) -> bool.

Fixpoint get_attr (k : string) (attrs : list (string * string)) : option string :=
  match attrs with
  | [] => None
  | (k', v) :: rest => if String.eqb k' k then Some v else get_attr k rest
  end.

(** [el.setAttribute(k, v)]: overwrite in place, or add at the end. *)
Fixpoint set_attr (k v : string) (attrs : list (string * string))
  : list (string * string) :=
  match attrs with
  | [] => [(k, v)]
  | (k', v') :: rest =>
      if String.eqb k' k then (k, v) :: rest else (k', v') :: set_attr k v rest
  end.

Definition byTag (t : string) : selector := fun tag _ => String.eqb tag t.

Definition byId (i : string) : selector :=
  fun _ attrs => bool_decide (get_attr "id" attrs = Some i).

Definition byClass (c : string) : selector :=
  fun _ attrs =>
    match get_attr "class" attrs with
    | Some v => bool_decide (c ∈ String.words v)
    | None => false
    end.

Definition shift (q : path) : path :=
  match q with
  | [] => []
  | i :: q' => S i :: q'
  end.

(** The first node, in document (pre-)order, that the selector accepts: the
    element [getElementsByTagName(..)[0]], [getElementsByClassName(..)[0]],
    [getElementById(..)] and [querySelector('#..')] return.  [find_node]
    starts at a node and includes it, [find_forest] searches a list of
    siblings with their descendants. *)
Fixpoint find_node (p : selector) (n : node) : option path :=
  match n with
  | Text _ => None
  | Elem t a cs =>
      if p t a then Some []
      else (fix go (l : list node) : option path :=
              match l with
              | [] => None
              | c :: l' =>
                  match find_node p c with
                  | Some q => Some (O :: q)
                  | None => shift <$> go l'
                  end
              end) cs
  end.

Fixpoint find_forest (p : selector) (l : list node) : option path :=
  match l with
  | [] => None
  | c :: l' =>
      match find_node p c with
      | Some q => Some (O :: q)
      | None => shift <$> find_forest p l'
      end
  end.

Definition children_of (n : node) : list node :=
  match n with
  | Text _ => []
  | Elem _ _ cs => cs
  end.

Definition map_children (g : list node -> list node) (n : node) : node :=
  match n with
  | Text s => Text s
  | Elem t a cs => Elem t a (g cs)
  end.

Definition map_attrs (g : list (string * string) -> list (string * string))
    (n : node) : node :=
  match n with
  | Text s => Text s
  | Elem t a cs => Elem t (g a) cs
  end.

(** The node at a path. *)
Fixpoint get_node (q : path) (f : list node) : option node :=
  match q with
  | [] => None
  | i :: q' =>
      match f !! i with
      | None => None
      | Some n =>
          match q' with
          | [] => Some n
          | _ :: _ => get_node q' (children_of n)
          end
      end
  end.

(** Rewrite the sibling list that holds the node at path [q]: [g i sibs]
    receives the node's index among its siblings. *)
Fixpoint sib_update (q : path) (g : nat -> list node -> list node)
    (f : list node) : list node :=
  match q with
  | [] => f
  | i :: q' =>
      match q' with
      | [] => g i f
      | _ :: _ => alter (map_children (sib_update q' g)) i f
      end
  end.

(** Rewrite the node at path [q] itself. *)
Definition node_update (q : path) (h : node -> node) (f : list node) : list node :=
  sib_update q (fun i sibs => alter h i sibs) f.

Definition is_element (n : node) : bool :=
  match n with
  | Text _ => false
  | Elem _ _ _ => true
  end.

(** [parent.insertBefore(new, ref.nextSibling)] for the node [ref] at index
    [i]: the new node becomes the next sibling of [ref]. *)
Definition insert_after (new : node) (i : nat) (sibs : list node) : list node :=
  take (S i) sibs ++ new :: drop (S i) sibs.

(** [while (el.nextElementSibling !== null) el.nextElementSibling.remove()]
    for the node [el] at index [i]: every later sibling that is an element
    goes, text nodes stay. *)
Definition drop_next_elements (i : nat) (sibs : list node) : list node :=
  take (S i) sibs ++ filter (fun n => is_element n = false) (drop (S i) sibs).

(** [el.remove()] for the node at index [i]. *)
Definition remove_at (i : nat) (sibs : list node) : list node := delete i sibs.

(** The path of [node.parentNode]; [None] when the parent is the document. *)
Definition parent_path (q : path) : option path :=
  match q with
  | [] | [_] => None
  | _ => Some (removelast q)
  end.

(** ** Results, state and the monad *)

Inductive error :=
  | ENOENT (file : string)      (* a read of a file that does not exist *)
  | TypeError (what : string)   (* a property read on null or undefined *)
  | JsError (msg : string).     (* an [Error] or [DOMException] of a library *)

(** How a piece of the program ends: it returns, it throws (an [async]
    function's promise rejects), the process exits, or it loops forever. *)
Inductive outcome (A : Type) :=
  | Ok (a : A)
  | Throw (e : error)
  | Exit (code : Z)
  | Diverge.
Arguments Ok {A} a.
Arguments Throw {A} e.
Arguments Exit {A} code.
Arguments Diverge {A}.

Global Instance outcome_ret : MRet outcome := fun A a => Ok a.
Global Instance outcome_bind : MBind outcome := fun A B f m =>
  match m with
  | Ok a => f a
  | Throw e => Throw e
  | Exit c => Exit c
  | Diverge => Diverge
  end.

(** [x[0]] on a collection that may be empty, followed by a property read. *)
Definition first_or_throw (what : string) (o : option path) : outcome path :=
  match o with
  | Some q => Ok q
  | None => Throw (TypeError what)
  end.

(** Parsed front matter, [fm(fileData).attributes]: a JavaScript object. *)
Definition attr (frontmatter : gmap string jsval) (k : string) : jsval :=
  default JUndefined (frontmatter !! k).

(** An entry of [blogPages]: [[frontmatter, document, pageName]]. *)
Record page := mkPage {
  page_frontmatter : gmap string jsval;
  page_document : document;
  page_name : string
}.

(** What [fs.writeFile] is given: a serialised document, that is
    ["<!DOCTYPE " + name + ">\n" + html.outerHTML], kept structured, or a
    literal string. *)
Inductive filedata :=
  | Html (doctype_name : string) (html : node)
  | Raw (s : string).

(** The statement of the source that writes: line 171 (a page), line 223 (an
    individual post), lines 266/269 (an aggregation page), line 86. *)
Inductive write_site := PageOut | PostOut | IndexOut | CnameOut.

Global Instance write_site_eq_dec : EqDecision write_site.
Proof. solve_decision. Defined.

Inductive event :=
  | EvLog (msg : string)
  | EvWrite (site : write_site) (file : string) (data : filedata)
  | EvBlogIndex.  (* [blogIndex()] was entered *)

Record state := mkState {
  blogPages : list page;
  trace : list event
}.

Definition M (A : Type) : Type := state -> outcome A * state.

Definition ret {A} (a : A) : M A := fun st => (Ok a, st).

Definition bind {A B} (m : M A) (k : A -> M B) : M B := fun st =>
  match m st with
  | (Ok a, st') => k a st'
  | (Throw e, st') => (Throw e, st')
  | (Exit c, st') => (Exit c, st')
  | (Diverge, st') => (Diverge, st')
  end.

Notation "x <- m ;; k" := (bind m (fun x => k))
  (at level 20, m at level 99, k at level 200, only parsing).
Notation "m ;; k" := (bind m (fun _ => k))
  (at level 100, k at level 200, right associativity).

Definition lift {A} (o : outcome A) : M A := fun st => (o, st).

Definition emit (e : event) : M unit := fun st =>
  (Ok tt, mkState (blogPages st) (trace st ++ [e])).

Definition console_log (msg : string) : M unit := emit (EvLog msg).

(** [fs.writeFile]: the write is recorded with the path as the program
    spells it.  The directories of [public/] are there: [build] copies the
    tree of [pages/] before the walk. *)
Definition writeFile (site : write_site) (file : string) (data : filedata) : M unit :=
  emit (EvWrite site file data).

Definition process_exit {A} (code : Z) : M A := fun st => (Exit code, st).

Definition get_blogPages : M (list page) := fun st => (Ok (blogPages st), st).

Definition set_blogPages (l : list page) : M unit := fun st =>
  (Ok tt, mkState l (trace st)).

(** ** The environment: what the program reads

    [templates] maps a path to the document [JSDOM.fromFile] parses from it;
    [componentHead] is [templates/component_head.html] as the parser reads it
    when it is assigned to [innerHTML]; [marked_parse] is [marked.parse]
    followed by that same parsing; [serialize] is the [innerHTML] getter.
    [postsPerPage] is the global of that name. *)
Record env := mkEnv {
  templates : gmap string document;
  componentHead : option (list node);
  marked_parse : string -> list node;
  serialize : list node -> string;
  postsPerPage : nat
}.

Definition fromFile (E : env) (file : string) : M document :=
  lift (match templates E !! file with
        | Some d => Ok d
        | None => Throw (ENOENT file)
        end).

Definition readComponentHead (E : env) : M (list node) :=
  lift (match componentHead E with
        | Some h => Ok h
        | None => Throw (ENOENT "templates/component_head.html")
        end).

(** [doc.getElementsByTagName('head')[0].innerHTML = componentHead] *)
Definition set_head (h : list node) (d : document) : outcome document :=
  q ← first_or_throw "head" (find_forest (byTag "head") (nodes d));
  mret (mkDocument (doctype d) (node_update q (map_children (fun _ => h)) (nodes d))).

(** The serialised document: doctype name and the first [html] element. *)
Definition outerHtml (d : document) : outcome node :=
  q ← first_or_throw "html" (find_forest (byTag "html") (nodes d));
  match get_node q (nodes d) with
  | Some n => Ok n
  | None => Throw (TypeError "html")
  end.

(** ** [processPage] (cli.js, lines 89-172) *)

(** The front matter and body [fm] parses from a file of [pages/]. *)
Record pagefile := mkPagefile {
  attributes : gmap string jsval;
  body : string
}.

Definition calendar : list string :=
  ["January"; "February"; "March"; "April"; "May"; "June"; "July"; "August";
   "September"; "October"; "November"; "December"].

(** [calendar[parseInt(s) - 1]] *)
Definition month_name (s : string) : jsval :=
  match parseInt s with
  | Some m =>
      if 1 <=? m then
        match calendar !! Z.to_nat (m - 1) with
        | Some name => JStr name
        | None => JUndefined
        end
      else JUndefined
  | None => JUndefined
  end.

(** [s.replace(/^0/, "")] *)
Definition strip_leading_zero (s : string) : string :=
  match s with
  | String c s' => if Ascii.eqb c "0" then s' else s
  | "" => ""
  end.

(** Lines 132-135 and the right-hand side of line 140. *)
Definition dateString (date : jsval) : string :=
  let month := month_name (slice 4 6 (toString date)) in
  let day := strip_leading_zero (slice_from 6 (toString date)) in
  let year := slice 0 4 (toString date) in
  toString month +:+ " " +:+ day +:+ ", " +:+ year.

(** The same lines in the earlier variant of the transform (the unnamed
    source file, lines 146-148 and 153): the day is [slice(6)] as it stands. *)
Definition dateString_unstripped (date : jsval) : string :=
  let month := month_name (slice 4 6 (toString date)) in
  let day := slice_from 6 (toString date) in
  let year := slice 0 4 (toString date) in
  toString month +:+ " " +:+ day +:+ ", " +:+ year.

Definition dateSpan (date : jsval) : node :=
  Elem "span" [("class", "muted date")] [Text (dateString date)].

(** Lines 138-142.  With no [h2], [dateInsert[0]] is undefined and reading
    its [parentNode] throws; an [h2] directly below the document has the
    document as parent, which refuses a second element. *)
Definition insertDate (date : jsval) (d : document) : outcome document :=
  q ← first_or_throw "dateInsert[0]" (find_forest (byTag "h2") (nodes d));
  match parent_path q with
  | None => Throw (JsError "HierarchyRequestError")
  | Some _ =>
      Ok (mkDocument (doctype d) (sib_update q (insert_after (dateSpan date)) (nodes d)))
  end.

(** The setter of [document.title]: the first [title] element receives the
    text; without one, a new [title] is appended to the [head]. *)
Definition set_title (t : string) (d : document) : document :=
  match find_forest (byTag "title") (nodes d) with
  | Some q =>
      mkDocument (doctype d) (node_update q (map_children (fun _ => [Text t])) (nodes d))
  | None =>
      match find_forest (byTag "head") (nodes d) with
      | Some q =>
          mkDocument (doctype d)
            (node_update q (map_children (fun cs => cs ++ [Elem "title" [] [Text t]]))
               (nodes d))
      | None => d
      end
  end.

(** Lines 152-162. *)
Definition page_title (E : env) (frontmatter : gmap string jsval) (d : document) : jsval :=
  if truthy (attr frontmatter "title") then attr frontmatter "title"
  else
    match find_forest (byTag "h1") (nodes d) with
    | Some q => JStr (serialize E (from_option children_of [] (get_node q (nodes d))))
    | None => attr frontmatter "title"
    end.

Definition templatePath (frontmatter : gmap string jsval) : string :=
  if truthy (attr frontmatter "template")
  then "templates/" +:+ toString (attr frontmatter "template") +:+ ".html"
  else "templates/default.html".

(** Lines 109-111. *)
Definition pagePathParts (pagePath : string) : list string :=
  split "/" (replace_first "pages/" "" pagePath).
Definition pageName (pagePath : string) : string :=
  hd "" (split ".md" (List.last (pagePathParts pagePath) "")).
Definition targetPath (pagePath : string) : string :=
  join "/" (removelast (pagePathParts pagePath)).

Definition outputPath (pagePath : string) : string :=
  "public/" +:+ targetPath pagePath +:+ "/" +:+ pageName pagePath +:+ ".html".

Definition missing_content_warning (tpl : string) : string :=
  "Could not find element with id 'page-content' in template " +:+ tpl +:+
  ". Generating page without markdown content.".

(** Lines 119-123: [pageContentElement.innerHTML = parsedHtml] when the
    element exists. *)
Definition setContent (parsedHtml : list node) (d : document) : option document :=
  q ← find_forest (byId "page-content") (nodes d);
  Some (mkDocument (doctype d) (node_update q (map_children (fun _ => parsedHtml)) (nodes d))).

Definition processPage (E : env) (pagePath : string) (file : pagefile) : M unit :=
  let frontmatter := attributes file in
  let markdown := body file in
  if bool_decide (attr frontmatter "publish" = JStr "no") then ret tt
  else
    document <- fromFile E (templatePath frontmatter) ;;
    head <- readComponentHead E ;;
    document <- lift (set_head head document) ;;
    let parsedHtml := marked_parse E markdown in
    document <-
      match setContent parsedHtml document with
      | Some d => ret d
      | None =>
          console_log (missing_content_warning (templatePath frontmatter)) ;;
          ret document
      end ;;
    document <-
      (if truthy (attr frontmatter "date")
       then lift (insertDate (attr frontmatter "date") document)
       else ret document) ;;
    match find_forest (byTag "html") (nodes document) with
    | None =>
        console_log "Templates should contain the 'html' tag." ;;
        @process_exit unit 1
    | Some _ =>
        let title := page_title E frontmatter document in
        let document := if truthy title then set_title (toString title) document
                        else document in
        if String.eqb (targetPath pagePath) "blog" then
          pages <- get_blogPages ;;
          set_blogPages (pages ++ [mkPage frontmatter document (pageName pagePath)])
        else
          name <- lift (match doctype document with
                        | Some n => Ok n
                        | None => Throw (TypeError "document.doctype")
                        end) ;;
          html <- lift (outerHtml document) ;;
          writeFile PageOut (outputPath pagePath) (Html name html)
    end.

(** ** [blogIndex] (cli.js, lines 174-273) *)

Definition date_of (p : page) : jsval := attr (page_frontmatter p) "date".

(** [function(a, b){return b[0].date - a[0].date}]; a NaN result counts as
    [+0], as [Array.prototype.sort] reads it. *)
Definition compareDates (a b : page) : Z :=
  match toNumber (date_of b), toNumber (date_of a) with
  | Some x, Some y => x - y
  | _, _ => 0
  end.

(** [blogPages.sort(compare)].  [Array.prototype.sort] is stable: an element
    moves behind another only when the comparator is positive.  For a
    consistent comparator, which this one is on numeric dates, every stable
    sort yields this list. *)
Fixpoint sort_insert (x : page) (l : list page) : list page :=
  match l with
  | [] => [x]
  | y :: l' => if 0 <? compareDates x y then y :: sort_insert x l' else x :: y :: l'
  end.

Definition sort_pages (l : list page) : list page := foldr sort_insert [] l.

(** [Math.ceil(n / p)] for [p > 0]. *)
Definition ceil_div (n p : nat) : nat := ((n + p - 1) / p)%nat.

Definition num (n : nat) : string := Z_to_string (Z.of_nat n).

Definition postUrl (p : page) : string := "/blog/" +:+ page_name p.

(** Lines 196-207: the excerpt of a post for the index page, built on a
    clone of its document.  Where the source assigns a string to [innerHTML]
    that it has read from [innerHTML], the nodes are carried over as they
    are. *)
Definition excerpt (p : page) : outcome (list node) :=
  let documentCopy := nodes (page_document p) in
  qh ← first_or_throw "h2" (find_forest (byTag "h2") documentCopy);
  let h2 := from_option children_of [] (get_node qh documentCopy) in
  let documentCopy :=
    node_update qh (map_children (fun _ => [Elem "a" [("href", postUrl p)] h2]))
      documentCopy in
  qr ← first_or_throw "readmore" (find_forest (byClass "readmore") documentCopy);
  let documentCopy :=
    node_update qr (map_attrs (set_attr "href" (postUrl p))) documentCopy in
  qr ← first_or_throw "readmore" (find_forest (byClass "readmore") documentCopy);
  match parent_path qr with
  | None => Throw (TypeError "readMoreParent.nextElementSibling")
  | Some readMoreParent =>
      let documentCopy := sib_update readMoreParent drop_next_elements documentCopy in
      qc ← first_or_throw "page-content" (find_forest (byId "page-content") documentCopy);
      mret (from_option children_of [] (get_node qc documentCopy))
  end.

Definition newerButton (target : page) : node :=
  Elem "span" []
    [Elem "a" [("href", postUrl target); ("class", "readmore floatleft")] [Text "Newer"]].

Definition olderButton (target : page) : node :=
  Elem "span" []
    [Elem "a" [("href", postUrl target); ("class", "readmore floatright")] [Text "Older"]].

(** [doc.getElementById("page-content").insertAdjacentElement('beforeend', el)] *)
Definition appendToContent (el : node) (d : list node) : outcome (list node) :=
  q ← first_or_throw "page-content" (find_forest (byId "page-content") d);
  mret (node_update q (map_children (fun cs => cs ++ [el])) d).

Definition entry_or_throw (originalBlogPages : list page) (i : nat) : outcome page :=
  match originalBlogPages !! i with
  | Some p => Ok p
  | None => Throw (TypeError "originalBlogPages[i]")
  end.

(** Line 209: [page[1].getElementsByClassName("readmore")[0].parentNode.remove()] *)
Definition removeReadMore (d : list node) : outcome (list node) :=
  qr ← first_or_throw "readmore" (find_forest (byClass "readmore") d);
  match parent_path qr with
  | None => Throw (TypeError "parentNode.remove")
  | Some parent => Ok (sib_update parent remove_at d)
  end.

(** Lines 211-221: the Newer and Older controls. *)
Definition addPrevNext (originalBlogPages : list page) (totalBlogPages pageIndex : nat)
    (d : list node) : outcome (list node) :=
  d ← (if negb (pageIndex =? 0)%nat then
         target ← entry_or_throw originalBlogPages (pageIndex - 1);
         appendToContent (newerButton target) d
       else mret d);
  if negb (pageIndex =? totalBlogPages - 1)%nat then
    target ← entry_or_throw originalBlogPages (pageIndex + 1);
    appendToContent (olderButton target) d
  else mret d.

(** Lines 209-222: the individual post, as it is written to its file. *)
Definition individualPost (originalBlogPages : list page) (totalBlogPages pageIndex : nat)
    (p : page) : outcome filedata :=
  d ← removeReadMore (nodes (page_document p));
  d ← addPrevNext originalBlogPages totalBlogPages pageIndex d;
  name ← match doctype (page_document p) with
         | Some n => Ok n
         | None => Throw (TypeError "page[1].doctype")
         end;
  html ← outerHtml (mkDocument (doctype (page_document p)) d);
  mret (Html name html).

Definition postPath (p : page) : string := "public/blog/" +:+ page_name p +:+ ".html".

(** Lines 194-226: the loop over one batch. *)
Fixpoint batch_loop (originalBlogPages : list page) (totalBlogPages : nat)
    (batch : list page) (aggregatePages : list node) (pageIndex : nat)
  : M (list node * nat) :=
  match batch with
  | [] => ret (aggregatePages, pageIndex)
  | p :: rest =>
      ex <- lift (excerpt p) ;;
      data <- lift (individualPost originalBlogPages totalBlogPages pageIndex p) ;;
      writeFile PostOut (postPath p) data ;;
      batch_loop originalBlogPages totalBlogPages rest (aggregatePages ++ ex)
        (S pageIndex)
  end.

Definition setAttributeById (id k v : string) (d : document) : outcome document :=
  q ← first_or_throw id (find_forest (byId id) (nodes d));
  mret (mkDocument (doctype d) (node_update q (map_attrs (set_attr k v)) (nodes d))).

Definition setInnerById (id : string) (cs : list node) (d : document) : outcome document :=
  q ← first_or_throw id (find_forest (byId id) (nodes d));
  mret (mkDocument (doctype d) (node_update q (map_children (fun _ => cs)) (nodes d))).

Definition pageLink (href text : string) : list node :=
  [Elem "a" [("href", href)] [Text text]].

Definition backLink (pageCount : nat) : list node :=
  if (pageCount =? 2)%nat then pageLink "/" "<"
  else pageLink ("/" +:+ num (pageCount - 1)) "<".

(** Lines 230-261: the pagination widget of an index page. *)
Definition paginate (pageCount totalIndexPages : nat) (d : document) : outcome document :=
  d ← (if (pageCount =? 1)%nat then
         d ← setAttributeById "paginationBegin" "class" "muted" d;
         d ← setAttributeById "paginationBack" "class" "muted" d;
         if negb (pageCount =? totalIndexPages)%nat then
           d ← setInnerById "paginationForward"
                 (pageLink ("/" +:+ num (pageCount + 1)) ">") d;
           setInnerById "paginationEnd" (pageLink ("/" +:+ num totalIndexPages) ">>") d
         else mret d
       else mret d);
  d ← (if (pageCount =? totalIndexPages)%nat then
         d ← setAttributeById "paginationForward" "class" "muted" d;
         d ← setAttributeById "paginationEnd" "class" "muted" d;
         if negb (pageCount =? 1)%nat then
           d ← setInnerById "paginationBegin" (pageLink "/" "<<") d;
           setInnerById "paginationBack" (backLink pageCount) d
         else mret d
       else mret d);
  d ← (if negb (pageCount =? 1)%nat && negb (pageCount =? totalIndexPages)%nat then
         d ← setInnerById "paginationBegin" (pageLink "/" "<<") d;
         d ← setInnerById "paginationBack" (backLink pageCount) d;
         d ← setInnerById "paginationForward"
               (pageLink ("/" +:+ num (pageCount + 1)) ">") d;
         setInnerById "paginationEnd" (pageLink ("/" +:+ num totalIndexPages) ">>") d
       else mret d);
  setInnerById "paginationPages"
    [Text (num pageCount +:+ " of " +:+ num totalIndexPages)] d.

Definition indexPath (pageCount : nat) : string :=
  if (pageCount =? 1)%nat then "public/index.html"
  else "public/" +:+ num pageCount +:+ ".html".

(** Lines 184-272: [while (blogPages.length !== 0)].  Every turn splices
    [postsPerPage] entries off the front; with [postsPerPage = 0] nothing is
    ever removed and the loop does not end, which the fuel renders as
    [Diverge].  [blogIndex] starts it with fuel for every entry. *)
Fixpoint index_loop (E : env) (originalBlogPages : list page)
    (totalBlogPages totalIndexPages : nat) (fuel : nat)
    (pageCount pageIndex : nat) : M unit :=
  pages <- get_blogPages ;;
  match pages with
  | [] => ret tt
  | _ :: _ =>
      match fuel with
      | O => fun st => (Diverge, st)
      | S fuel' =>
          document <- fromFile E "templates/blogIndex.html" ;;
          head <- readComponentHead E ;;
          document <- lift (set_head head document) ;;
          let blogPagesSplice := take (postsPerPage E) pages in
          set_blogPages (drop (postsPerPage E) pages) ;;
          r <- batch_loop originalBlogPages totalBlogPages blogPagesSplice [] pageIndex ;;
          document <- lift (setInnerById "page-content" (fst r) document) ;;
          document <- lift (paginate pageCount totalIndexPages document) ;;
          html <- lift (outerHtml document) ;;
          writeFile IndexOut (indexPath pageCount) (Html "html" html) ;;
          index_loop E originalBlogPages totalBlogPages totalIndexPages fuel'
            (S pageCount) (snd r)
      end
  end.

Definition blogIndex (E : env) : M unit :=
  emit EvBlogIndex ;;
  pages <- get_blogPages ;;
  set_blogPages (sort_pages pages) ;;
  originalBlogPages <- get_blogPages ;;
  let totalBlogPages := length originalBlogPages in
  let totalIndexPages := ceil_div totalBlogPages (postsPerPage E) in
  index_loop E originalBlogPages totalBlogPages totalIndexPages totalBlogPages 1 0.

(** ** [processDirectory] (cli.js, lines 70-87) and [build]

    A directory of [pages/] as [fs.readdir] and [fs.lstat] present it: the
    entries in listing order, each a file (with what [fm] parses from it) or
    a directory. *)
Inductive entry :=
  | File (name : string) (data : pagefile)
  | Dir (name : string) (contents : list entry).

(** A dispatched [processPage(pagePath)]: the promise pushed on
    [processPagePromises]. *)
Definition task : Type := string * pagefile.

(** The transforms of one directory run concurrently: every one has been
    started when [Promise.all] is awaited, and the order in which they finish
    is the runtime's choice.  A scheduler fixes that choice: it lists the
    dispatched transforms in their order of completion.  A transform touches
    the shared state at its end only (the warning, then the push on
    [blogPages] or the write of its file), so it is run as one step at its
    completion, and completions are placed at the [Promise.all] that awaits
    them.  This is the semantics of promises in the language; what the host
    does with a rejection that nothing handles is not part of it. *)
Record scheduler := mkScheduler {
  completion : list task -> list task;
  completion_perm : forall l, completion l ≡ₚ l
}.

(** The transforms in flight run to their end whatever the others do: a
    rejected promise cancels nothing.  The first rejection is the one
    [Promise.all] reports.  [process.exit] ends everything at once. *)
Fixpoint run_tasks (E : env) (ts : list task) (rejected : option error)
  : M (option error) :=
  match ts with
  | [] => ret rejected
  | t :: rest => fun st =>
      match processPage E (fst t) (snd t) st with
      | (Ok _, st') => run_tasks E rest rejected st'
      | (Throw e, st') => run_tasks E rest (Some (default e rejected)) st'
      | (Exit c, st') => (Exit c, st')
      | (Diverge, st') => (Diverge, st')
      end
  end.

(** [await Promise.all(processPagePromises)] *)
Definition await_all (E : env) (S : scheduler) (pending : list task) : M unit :=
  r <- run_tasks E (completion S pending) None ;;
  match r with
  | None => ret tt
  | Some e => lift (Throw e)
  end.

(** [await processDirectory(sub)] inside the loop: when it throws, the loop
    is left with that exception, and the transforms this directory has
    already dispatched still run to their end. *)
Definition awaiting (E : env) (S : scheduler) (pending : list task) (m : M unit)
  : M unit :=
  fun st =>
    match m st with
    | (Throw e, st') => (run_tasks E (completion S pending) None ;; lift (Throw e)) st'
    | r => r
    end.

Definition cname : filedata := Raw "www.jasonhallen.com".

Fixpoint walk_entry (E : env) (S : scheduler) (directoryPath : string) (e : entry)
    (processPagePromises : list task) {struct e} : M (list task) :=
  match e with
  | File element data =>
      if negb (startsWith element ".")
      then ret (processPagePromises ++ [(directoryPath +:+ "/" +:+ element, data)])
      else ret processPagePromises
  | Dir element contents =>
      awaiting E S processPagePromises
        (pending <-
           (fix loop (l : list entry) (pending : list task) : M (list task) :=
              match l with
              | [] => ret pending
              | c :: l' =>
                  pending' <- walk_entry E S (directoryPath +:+ "/" +:+ element) c pending ;;
                  loop l' pending'
              end) contents [] ;;
         await_all E S pending ;;
         blogIndex E ;;
         writeFile CnameOut "public/CNAME" cname) ;;
      ret processPagePromises
  end.

(** The [for (const element of contents)] loop. *)
Fixpoint walk_entries (E : env) (S : scheduler) (directoryPath : string)
    (l : list entry) (pending : list task) : M (list task) :=
  match l with
  | [] => ret pending
  | c :: l' =>
      pending' <- walk_entry E S directoryPath c pending ;;
      walk_entries E S directoryPath l' pending'
  end.

Definition processDirectory (E : env) (S : scheduler) (directoryPath : string)
    (contents : list entry) : M unit :=
  pending <- walk_entries E S directoryPath contents [] ;;
  await_all E S pending ;;
  blogIndex E ;;
  writeFile CnameOut "public/CNAME" cname.

(** [build] (lines 48-68), without the copying of static files and the
    listing it prints. *)
Definition build (E : env) (S : scheduler) (pages : list entry) : M unit :=
  set_blogPages [] ;;
  processDirectory E S "pages" pages.

Definition initial : state := mkState [] [].

(** ** The comment thread of a post

    The later variant of [blogIndex], the one kept with README.md, renders
    the comments of a post (lines 456-496 there).  One parsed comment file is
    the object [yaml.parse] returns.  The thread is the child list of the
    [comment-list] element, built comment by comment in the order of the
    directory listing.  The selector [#comment-<uid>] is read as a search by
    id, which it is for a uid made of letters, digits, [-] and [_]. *)

Record comment_env := mkCommentEnv {
  componentComment : list node;          (* templates/component_comment.html, parsed *)
  marked_breaks : string -> list node;   (* marked.parse(s, {breaks: true}), parsed;
                                            marked throws when s is no string *)
  localeDate : jsval -> string;          (* new Date(d).toLocaleString(..) *)
  localeTime : jsval -> string           (* new Date(d).toLocaleTimeString(..) *)
}.

(** [article.getElementsByClassName(c)[0]], then a change of that element. *)
Definition update_first (c : string) (h : node -> node) (f : list node)
  : outcome (list node) :=
  q ← first_or_throw c (find_forest (byClass c) f);
  mret (node_update q h f).

Definition commentId (ymlParsed : gmap string jsval) : string :=
  "comment-" +:+ toString (attr ymlParsed "_id").

Definition replyOnclick (ymlParsed : gmap string jsval) : string :=
  "return addComment.moveForm('" +:+ commentId ymlParsed +:+ "', 'comment-form', '" +:+
  toString (attr ymlParsed "_id") +:+ "', '" +:+ toString (attr ymlParsed "name") +:+ "')".

(** The body of the [forEach] callback up to the branch on
    [replying_to_uid]: the content of the new [article]. *)
Definition commentContent (C : comment_env) (ymlParsed : gmap string jsval)
  : outcome (list node) :=
  a ← update_first "comment-author"
        (map_children (fun cs => Text (toString (attr ymlParsed "name")) :: cs))
        (componentComment C);
  a ← update_first "comment-link"
        (map_attrs (set_attr "href" ("#" +:+ commentId ymlParsed))) a;
  a ← update_first "comment-link"
        (map_children (fun _ =>
           [Text (" - " +:+ localeDate C (attr ymlParsed "date") +:+ " at " +:+
                  localeTime C (attr ymlParsed "date"))])) a;
  message ← match attr ymlParsed "message" with
            | JStr s => Ok (marked_breaks C s)
            | _ => Throw (JsError "marked(): input parameter is not a string")
            end;
  update_first "comment-text" (map_children (fun _ => message)) a.

Definition commentArticle (ymlParsed : gmap string jsval) (class : string)
    (content : list node) : node :=
  Elem "article"
    [("id", commentId ymlParsed); ("class", class);
     ("uid", toString (attr ymlParsed "_id"))]
    content.

(** One turn of [commentsList.forEach]: a comment without
    [replying_to_uid] goes to the end of the list; a reply is put after the
    element [querySelector] finds for its parent's id, and [.after] is called
    on whatever [querySelector] returned. *)
Definition renderComment (C : comment_env) (commentList : list node)
    (ymlParsed : gmap string jsval) : outcome (list node) :=
  a ← commentContent C ymlParsed;
  if negb (truthy (attr ymlParsed "replying_to_uid")) then
    a ← update_first "comment-reply-link"
          (map_children (fun _ =>
             [Text ("[ Reply to " +:+ toString (attr ymlParsed "name") +:+ " ]")])) a;
    a ← update_first "comment-reply-link"
          (map_attrs (set_attr "onclick" (replyOnclick ymlParsed))) a;
    mret (commentList ++ [commentArticle ymlParsed "comment-article" a])
  else
    q ← first_or_throw "comment-reply-link" (find_forest (byClass "comment-reply-link") a);
    let a := sib_update q remove_at a in
    let article := commentArticle ymlParsed "comment-article nested" a in
    parent ← first_or_throw "querySelector(..).after"
               (find_forest
                  (byId ("comment-" +:+ toString (attr ymlParsed "replying_to_uid")))
                  commentList);
    mret (sib_update parent (insert_after article) commentList).

(** The whole [forEach]: the list starts as [<h2>Comments</h2>]. *)
Fixpoint renderComments_from (C : comment_env) (commentList : list node)
    (comments : list (gmap string jsval)) : outcome (list node) :=
  match comments with
  | [] => Ok commentList
  | c :: rest =>
      l ← renderComment C commentList c;
      renderComments_from C l rest
  end.

Definition commentListDiv (C : comment_env) (comments : list (gmap string jsval))
  : outcome node :=
  l ← renderComments_from C [Elem "h2" [] [Text "Comments"]] comments;
  mret (Elem "div" [("id", "comment-list")] l).

(** ** The development server and the copy filters (cli.js)

    [s.includes(sub)] and [s.endsWith(suffix)]. *)
Definition includes (s sub : string) : bool :=
  match index 0 sub s with
  | Some _ => true
  | None => false
  end.

Definition endsWith (s suffix : string) : bool :=
  (String.length suffix <=? String.length s)%nat &&
  String.eqb
    (substring (String.length s - String.length suffix) (String.length suffix) s)
    suffix.

(** Lines 290-296: the path, below [public], that a request is answered
    from. *)
Definition filePath (url : string) : string :=
  if String.eqb url "/" then "/index.html"
  else if negb (includes url ".") then url +:+ ".html"
  else url.

(** Lines 297-305: the callback of [fs.readFile('public' + filePath, ..)]:
    status and body of the response.  [files] holds the files below the
    working directory by their path. *)
Definition respond (files : gmap string string) (url : string) : Z * string :=
  match files !! ("public" +:+ filePath url) with
  | None => (404, "<h1>404: Page not found</h1>")
  | Some data => (200, data)
  end.

(** Lines 55 and 59: the filters [build] hands to [fs.copy] for
    [templates/] and for [pages/].  [fs.copy] calls the filter with the path
    of each item it meets, the source directory at its front. *)
Definition templatesFilter (f : string) : bool :=
  negb (startsWith f ".") && negb (endsWith f ".html").

Definition pagesFilter (f : string) : bool :=
  negb (startsWith f ".") && negb (endsWith f ".md").

(** ** The later variant of [processPage] (kept with README.md)

    Lines 277-306 there prepare the Markdown text before it is rendered:
    the cover figure and the title heading are put in front, then the
    [[READ MORE]] token is replaced. *)

Definition dq : string := String "034"%char "".
Definition nl : string := String "010"%char "".

Definition coverFigure (frontmatter : gmap string jsval) (caption : bool) : string :=
  "<figure><img class=" +:+ dq +:+ "cover-image" +:+ dq +:+ " src='" +:+
  toString (attr frontmatter "image") +:+ "' alt='" +:+
  toString (attr frontmatter "imageAlt") +:+ "'>" +:+
  (if caption
   then "<figcaption>" +:+ toString (attr frontmatter "imageCaption") +:+ "</figcaption>"
   else "") +:+
  "</figure>" +:+ nl +:+ nl.

(** Lines 278-283. *)
Definition withCover (frontmatter : gmap string jsval) (markdown : string) : string :=
  if truthy (attr frontmatter "image") && negb (truthy (attr frontmatter "imageCaption"))
  then coverFigure frontmatter false +:+ markdown
  else if truthy (attr frontmatter "image") && truthy (attr frontmatter "imageCaption")
  then coverFigure frontmatter true +:+ markdown
  else markdown.

(** [roll_list.sort()]: the default order of [Array.prototype.sort], by code
    units. *)
Fixpoint insert_name (x : string) (l : list string) : list string :=
  match l with
  | [] => [x]
  | y :: l' => if String.ltb y x then y :: insert_name x l' else x :: y :: l'
  end.

Definition sort_names (l : list string) : list string := foldr insert_name [] l.

(** [roll.slice(0, -3)] *)
Definition slice_end3 (s : string) : string := substring 0 (String.length s - 3) s.

(** [rollPage] (lines 562-580): the heading with the drop-down list of the
    rolls; [roll_list] is the listing of [pages/photo]. *)
Definition rollItem (current_roll : jsval) (roll : string) : string :=
  let roll_id := slice_end3 roll in
  if bool_decide (current_roll = JStr roll_id)
  then "<div class=" +:+ dq +:+ "current-selection pseudo-hover" +:+ dq +:+ "><a href=" +:+
       dq +:+ "/photo/" +:+ roll_id +:+ dq +:+ ">" +:+ roll_id +:+ "</a></div>" +:+ nl
  else "<div><a href=" +:+ dq +:+ "/photo/" +:+ roll_id +:+ dq +:+ ">" +:+ roll_id +:+
       "</a></div>" +:+ nl.

Definition rollPage (roll_list : list string) (current_roll : jsval) : string :=
  let roll_list_sorted := rev (sort_names roll_list) in
  "<div id=" +:+ dq +:+ "select-custom" +:+ dq +:+ ">" +:+ nl +:+
  "<div id=" +:+ dq +:+ "select-selected" +:+ dq +:+ "><h2 onclick=" +:+ dq +:+
  "selectOpen(event)" +:+ dq +:+ ">Roll: " +:+ toString current_roll +:+ "</h2></div>" +:+ nl +:+
  "<div class=" +:+ dq +:+ "select-items select-hide" +:+ dq +:+ " onmouseover=" +:+ dq +:+
  "mouseoverDropdown(event)" +:+ dq +:+ ">" +:+ nl +:+
  foldl (fun s roll => s +:+ rollItem current_roll roll) "" roll_list_sorted +:+
  "</div>" +:+ nl +:+ "</div>" +:+ nl.

(** Lines 287-305. *)
Definition withTitle (frontmatter : gmap string jsval) (targetPath : string)
    (roll_list : list string) (markdown : string) : string :=
  if truthy (attr frontmatter "title") then
    if String.eqb targetPath "photo" then
      rollPage roll_list (attr frontmatter "title") +:+
      (if truthy (attr frontmatter "film")
       then "<p class=" +:+ dq +:+ "muted photo-metadata" +:+ dq +:+ ">" +:+
            toString (attr frontmatter "film") +:+ "</br>" +:+
            toString (attr frontmatter "camera") +:+ "</br>" +:+
            toString (attr frontmatter "dates") +:+ "</p>"
       else "") +:+
      markdown
    else "<h2>" +:+ toString (attr frontmatter "title") +:+ "</h2>" +:+ nl +:+ nl +:+ markdown
  else markdown.

Definition readMoreToken : string := "[READ MORE]".

Definition readMoreLink : string :=
  "<a class=" +:+ dq +:+ "readmore" +:+ dq +:+ " href=" +:+ dq +:+ "/" +:+ dq +:+
  ">Read more</a>".

(** Line 306: [markdown.replace("[READ MORE]", ..)]. *)
Definition withReadMore (markdown : string) : string :=
  replace_first readMoreToken readMoreLink markdown.

(** The text handed to [marked.parse] (line 309). *)
Definition prepareMarkdown (frontmatter : gmap string jsval) (targetPath : string)
    (roll_list : list string) (markdown : string) : string :=
  withReadMore (withTitle frontmatter targetPath roll_list (withCover frontmatter markdown)).

(** *** Navigation highlighting (lines 239-263 there) *)

(** Every node the selector accepts, in document order:
    [el.querySelectorAll(..)] over the children of [el]. *)
Fixpoint find_all_node (p : selector) (n : node) : list path :=
  match n with
  | Text _ => []
  | Elem t a cs =>
      (if p t a then [[]] else []) ++
      (fix go (i : nat) (l : list node) : list path :=
         match l with
         | [] => []
         | c :: l' => map (cons i) (find_all_node p c) ++ go (S i) l'
         end) O cs
  end.

Fixpoint find_all_from (p : selector) (i : nat) (l : list node) : list path :=
  match l with
  | [] => []
  | c :: l' => map (cons i) (find_all_node p c) ++ find_all_from p (S i) l'
  end.

(** The token set of a [classList]: the tokens of the attribute, each once,
    in the order of first occurrence. *)
Fixpoint ordered_set (l : list string) : list string :=
  match l with
  | [] => []
  | x :: l' => x :: filter (fun y => y <> x) (ordered_set l')
  end.

(** [el.classList.add(token)]: the token joins the set and the attribute is
    written back, the tokens separated by single spaces. *)
Definition classList_add (token : string) (attrs : list (string * string))
  : list (string * string) :=
  set_attr "class"
    (join " " (ordered_set (String.words (default "" (get_attr "class" attrs)) ++ [token])))
    attrs.

(** The links of the navigation: [navElement.querySelectorAll('a')]. *)
Definition navLinks (d : list node) (nav : path) : list path :=
  map (app nav)
    (find_all_from (byTag "a") O (from_option children_of [] (get_node nav d))).

(** The body of [links.forEach]. *)
Definition highlightLink (pageName targetPath : string) (d : list node) (link : path)
  : list node :=
  match get_node link d with
  | Some (Elem _ a _) =>
      match get_attr "href" a with
      | Some href =>
          if negb (String.eqb href "") &&
             (includes href pageName || includes href targetPath)
          then match parent_path link with
               | Some parentLi => node_update parentLi (map_attrs (classList_add "active")) d
               | None => d
               end
          else d
      | None => d
      end
  | _ => d
  end.

Definition highlightNav (pageName targetPath : string) (d : list node) : list node :=
  match find_forest (byId "nav") d with
  | None => d
  | Some nav => foldl (highlightLink pageName targetPath) d (navLinks d nav)
  end.

(** ** Auxiliary definitions used in the statements *)

(** The four digits of a year and the two digits of a month or day, as they
    stand in a [YYYYMMDD] date. *)
Definition digits4 (y : Z) : string :=
  String (digit_char (y / 1000)) (String (digit_char (y / 100 mod 10))
    (String (digit_char (y / 10 mod 10)) (String (digit_char (y mod 10)) ""))).

Definition digits2 (m : Z) : string :=
  String (digit_char (m / 10)) (String (digit_char (m mod 10)) "").




(** The children of the first element with id [page-content]. *)
Definition contentOf (f : list node) : option (list node) :=
  q ← find_forest (byId "page-content") f;
  children_of <$> get_node q f.

(** The date of a collected page as the comparator reads it. *)
Definition dateNum (p : page) : option Z := toNumber (date_of p).

(** [a] is not older than [b]; both dates are numbers. *)
Definition not_older (a b : page) : Prop :=
  match dateNum a, dateNum b with
  | Some x, Some y => y <= x
  | _, _ => False
  end.

(** The individual posts written, in the order of writing. *)
Definition post_writes (tr : list event) : list (string * filedata) :=
  omap (fun e => match e with
                 | EvWrite PostOut f data => Some (f, data)
                 | _ => None
                 end) tr.

(** The aggregation pages written, in the order of writing. *)
Definition index_writes (tr : list event) : list string :=
  omap (fun e => match e with
                 | EvWrite IndexOut f _ => Some f
                 | _ => None
                 end) tr.

(** How often [blogIndex] was entered. *)
Definition blogIndex_calls (tr : list event) : nat :=
  length (omap (fun e => match e with
                         | EvBlogIndex => Some tt
                         | _ => None
                         end) tr).


(** An [async] function whose promise settles: it is fulfilled or rejected,
    the process neither exits nor hangs. *)
Definition settles {A} (o : outcome A) : Prop :=
  match o with
  | Ok _ | Throw _ => True
  | Exit _ | Diverge => False
  end.

(** The events of a page transform: the warning and the write of the page. *)
Definition page_event (e : event) : Prop :=
  match e with
  | EvLog _ | EvWrite PageOut _ _ => True
  | _ => False
  end.

(** The number of directories below a list of entries. *)
Fixpoint count_dirs_entry (e : entry) : nat :=
  match e with
  | File _ _ => O
  | Dir _ contents =>
      S ((fix go (l : list entry) : nat :=
            match l with
            | [] => O
            | c :: l' => (count_dirs_entry c + go l')%nat
            end) contents)
  end.

Fixpoint count_dirs (l : list entry) : nat :=
  match l with
  | [] => O
  | c :: l' => (count_dirs_entry c + count_dirs l')%nat
  end.

(** What a page transform does to the shared state: it appends events of its
    own kind to the trace and, at most, pages to [blogPages]. *)
Definition page_effect (st st' : state) : Prop :=
  exists evs pgs,
    trace st' = trace st ++ evs /\ blogPages st' = blogPages st ++ pgs /\
    Forall page_event evs.

Definition page_like {A} (m : M A) : Prop :=
  forall st, page_effect st (snd (m st)) /\ fst (m st) <> Diverge.

(** The events of the aggregation: the writes of posts and index pages. *)
Definition agg_event (e : event) : Prop :=
  match e with
  | EvWrite PostOut _ _ | EvWrite IndexOut _ _ => True
  | _ => False
  end.

(** The transform of task [t] ran to its end at some point of the run that
    led to [final], and what it did to the shared state is still there. *)
Definition ran_to_completion (E : env) (t : task) (final : state) : Prop :=
  exists s,
    settles (fst (processPage E (fst t) (snd t) s)) /\
    page_effect (snd (processPage E (fst t) (snd t) s)) final.

(** The transforms the loop of [processDirectory] dispatches for a listing:
    one for every file whose name does not start with a dot. *)
Definition dispatched (directoryPath : string) (contents : list entry) : list task :=
  omap (fun e => match e with
                 | File element data =>
                     if negb (startsWith element ".")
                     then Some (directoryPath +:+ "/" +:+ element, data)
                     else None
                 | Dir _ _ => None
                 end) contents.

(** Induction over a directory tree. *)
Fixpoint entry_ind' (P : entry -> Prop)
    (Hfile : forall name data, P (File name data))
    (Hdir : forall name contents, Forall P contents -> P (Dir name contents))
    (e : entry) : P e :=
  match e with
  | File name data => Hfile name data
  | Dir name contents =>
      Hdir name contents
        ((fix go (l : list entry) : Forall P l :=
            match l with
            | [] => @List.Forall_nil _ P
            | c :: l' => @List.Forall_cons _ P c l' (entry_ind' P Hfile Hdir c) (go l')
            end) contents)
  end.

(** A successful walk of one entry: the transforms it dispatches and the
    number of times it enters [blogIndex]. *)
Definition walk_ok (E : env) (S : scheduler) (e : entry) : Prop :=
  forall directoryPath pending st r st',
  walk_entry E S directoryPath e pending st = (Ok r, st') ->
  r = pending ++ dispatched directoryPath [e] /\
  exists evs, trace st' = trace st ++ evs /\ blogIndex_calls evs = count_dirs_entry e.

(** ** Further definitions used in the statements *)

(** The string holds no character [c]. *)
Fixpoint lacks (c : ascii) (s : string) : bool :=
  match s with
  | EmptyString => true
  | String x s' => negb (Ascii.eqb x c) && lacks c s'
  end.

(** A piece of the program that reads of the state only the collection
    [blogPages], and only appends to what has been logged and written: its
    outcome, the collection it leaves and the events it adds are the same
    whatever happened before. *)
Definition uniform {A} (m : M A) : Prop :=
  forall pages, exists o pages' evs,
    forall tr, m (mkState pages tr) = (o, mkState pages' (tr ++ evs)).

(** A directory tree without the files whose name starts with a dot;
    directories stay, whatever their name. *)
Fixpoint prune_entry (e : entry) : option entry :=
  match e with
  | File name data => if startsWith name "." then None else Some e
  | Dir name contents =>
      Some (Dir name
              ((fix go (l : list entry) : list entry :=
                  match l with
                  | [] => []
                  | c :: l' =>
                      match prune_entry c with
                      | Some c' => c' :: go l'
                      | None => go l'
                      end
                  end) contents))
  end.

Fixpoint prune (l : list entry) : list entry :=
  match l with
  | [] => []
  | c :: l' =>
      match prune_entry c with
      | Some c' => c' :: prune l'
      | None => prune l'
      end
  end.

(** The walk of one entry does what it does for the pruned entry. *)
Definition skips_hidden (E : env) (S : scheduler) (e : entry) : Prop :=
  forall directoryPath pending st,
  walk_entry E S directoryPath e pending st =
  match prune_entry e with
  | Some e' => walk_entry E S directoryPath e' pending st
  | None => (Ok pending, st)
  end.

(** What the later variant puts in front of the Markdown text of a page:
    the title heading, then the cover figure. *)
Definition markdownHeader (frontmatter : gmap string jsval) (targetPath : string)
    (roll_list : list string) : string :=
  withTitle frontmatter targetPath roll_list (withCover frontmatter "").

(** ** A small site, used to run the model

    A default template with the insertion point, two templates without it
    (one with a heading and a Read-more paragraph of its own, one with plain
    text only), the template of the index pages with its pagination widget,
    and a Markdown renderer that yields a heading, the Read-more paragraph
    and a closing paragraph. *)

Definition demo_template : document :=
  mkDocument (Some "html")
    [Elem "html" []
       [Elem "head" [] [];
        Elem "body" [] [Elem "div" [("id", "page-content")] []]]].

Definition bare_template : document :=
  mkDocument (Some "html")
    [Elem "html" []
       [Elem "head" [] [];
        Elem "body" []
          [Elem "h2" [] [Text "Untitled"];
           Elem "p" [] [Elem "a" [("class", "readmore"); ("href", "/")] [Text "Read more"]]]]].

Definition static_template : document :=
  mkDocument (Some "html")
    [Elem "html" []
       [Elem "head" [] [];
        Elem "body" [] [Elem "p" [] [Text "A page without Markdown"]]]].

Definition demo_blogIndex : document :=
  mkDocument (Some "html")
    [Elem "html" []
       [Elem "head" [] [];
        Elem "body" []
          [Elem "div" [("id", "page-content")] [];
           Elem "span" [("id", "paginationBegin")] [Text "<<"];
           Elem "span" [("id", "paginationBack")] [Text "<"];
           Elem "span" [("id", "paginationPages")] [];
           Elem "span" [("id", "paginationForward")] [Text ">"];
           Elem "span" [("id", "paginationEnd")] [Text ">>"]]]].

Definition demo_marked (s : string) : list node :=
  [Elem "h2" [] [Text s];
   Elem "p" [] [Elem "a" [("class", "readmore"); ("href", "/")] [Text "Read more"]];
   Elem "p" [] [Text "more"]].

Definition plain_marked (s : string) : list node := [Elem "p" [] [Text s]].

Definition site_env (marked : string -> list node) (perPage : nat) : env :=
  mkEnv
    (<["templates/default.html" := demo_template]>
       (<["templates/bare.html" := bare_template]>
          (<["templates/static.html" := static_template]>
             (<["templates/blogIndex.html" := demo_blogIndex]> ∅))))
    (Some [Elem "meta" [("charset", "utf-8")] []])
    marked
    (fun _ => "")
    perPage.

Definition demo_env (perPage : nat) : env := site_env demo_marked perPage.

Definition plain_env : env := site_env plain_marked 10.

Definition dated (d : Z) (text : string) : pagefile :=
  mkPagefile (<["date" := JNum d]> ∅) text.

Definition with_template (t : string) (f : pagefile) : pagefile :=
  mkPagefile (<["template" := JStr t]> (attributes f)) (body f).

Definition unpublished : pagefile :=
  mkPagefile (<["publish" := JStr "no"]> ∅) "draft".

(** Two schedulers: completion in dispatch order, and in reverse. *)
Definition in_order : scheduler :=
  mkScheduler (fun l => l) (fun l => Permutation_refl l).

Definition reversed : scheduler :=
  mkScheduler (fun l => rev l) (fun l => Permutation_sym (Permutation_rev l)).

(** What a run leaves behind, reduced to the files written. *)
Definition written (tr : list event) : list (write_site * string) :=
  omap (fun e => match e with
                 | EvWrite s f _ => Some (s, f)
                 | _ => None
                 end) tr.

(** A collected post as [processPage] leaves it in [blogPages]. *)
Definition demo_post (name : string) (date : Z) : page :=
  mkPage (<["date" := JNum date]> ∅)
    (mkDocument (Some "html")
       [Elem "html" []
          [Elem "head" [] [];
           Elem "body" [] [Elem "div" [("id", "page-content")] (demo_marked name)]]])
    name.

Definition five_posts : state :=
  mkState
    [demo_post "a" 20230101; demo_post "b" 20230102; demo_post "c" 20230103;
     demo_post "d" 20230104; demo_post "e" 20230105] [].

(** A comment template with the four classes the renderer looks for, and two
    comment files: a top-level comment and a reply. *)
Definition demo_comment_env : comment_env :=
  mkCommentEnv
    [Elem "header" []
       [Elem "span" [("class", "comment-author")] [];
        Elem "a" [("class", "comment-link")] []];
     Elem "div" [("class", "comment-text")] [];
     Elem "a" [("class", "comment-reply-link")] []]
    plain_marked
    (fun _ => "January 5, 2023")
    (fun _ => "10:00 AM").

Definition top_comment (id name text : string) : gmap string jsval :=
  <["_id" := JStr id]> (<["name" := JStr name]> (<["message" := JStr text]> ∅)).

Definition reply_comment (id parent name text : string) : gmap string jsval :=
  <["replying_to_uid" := JStr parent]> (top_comment id name text).

(** Three posts, two of them of the same day, as the directory lists them. *)
Definition three_posts : list entry :=
  [File "first.md" (dated 20230101 "First");
   File "second.md" (dated 20230101 "Second");
   File "third.md" (dated 20230102 "Third")].

(** The page a transform leaves in [blogPages] when it runs on its own. *)
Definition collected_by (E : env) (t : task) : page :=
  List.last (blogPages (snd (processPage E (fst t) (snd t) initial)))
    (mkPage ∅ (mkDocument None []) "").


(** * Properties

    ** Decimal rendering of numbers and the date string *)

Lemma dec_S f n :
  dec (S f) n =
  if n <? 10 then String (digit_char n) ""
  else dec f (n / 10) +:+ String (digit_char (n mod 10)) "".
Proof. reflexivity. Qed.

Lemma dec_fuel_irrel f1 : forall f2 n, 0 <= n ->
  n < 2 ^ Z.of_nat (S f1) -> n < 2 ^ Z.of_nat (S f2) ->
  dec (S f1) n = dec (S f2) n.
Proof.
  induction f1 as [|f1 IH]; intros f2 n Hn H1 H2.
  - change (2 ^ Z.of_nat 1) with 2 in H1. simpl.
    replace (n <? 10) with true by (symmetry; apply Z.ltb_lt; lia). reflexivity.
  - rewrite (dec_S (S f1) n), (dec_S f2 n).
    destruct (n <? 10) eqn:E; [reflexivity|].
    apply Z.ltb_ge in E.
    rewrite Nat2Z.inj_succ, Z.pow_succ_r in H1 by lia.
    destruct f2 as [|f2].
    { change (2 ^ Z.of_nat 1) with 2 in H2. lia. }
    rewrite Nat2Z.inj_succ, Z.pow_succ_r in H2 by lia.
    rewrite (IH f2 (n / 10)); [reflexivity | | |].
    + apply Z.div_pos; lia.
    + apply Z.div_lt_upper_bound; lia.
    + apply Z.div_lt_upper_bound; lia.
Qed.

Lemma log2_fuel n : 0 <= n -> n < 2 ^ Z.of_nat (S (Z.to_nat (Z.log2 n))).
Proof.
  intros Hn. rewrite Nat2Z.inj_succ, Z2Nat.id by apply Z.log2_nonneg.
  destruct (Z.eq_dec n 0) as [->|Hne]; [simpl; lia|].
  apply Z.log2_spec. lia.
Qed.

Lemma Z_to_string_digit n : 0 <= n < 10 -> Z_to_string n = String (digit_char n) "".
Proof.
  intros Hn. unfold Z_to_string.
  replace (n <? 0) with false by (symmetry; apply Z.ltb_ge; lia).
  simpl. replace (n <? 10) with true by (symmetry; apply Z.ltb_lt; lia). reflexivity.
Qed.

Lemma Z_to_string_snoc n d : 0 < n -> 0 <= d < 10 ->
  Z_to_string (10 * n + d) = Z_to_string n +:+ String (digit_char d) "".
Proof.
  intros Hn Hd. unfold Z_to_string.
  replace (10 * n + d <? 0) with false by (symmetry; apply Z.ltb_ge; lia).
  replace (n <? 0) with false by (symmetry; apply Z.ltb_ge; lia).
  rewrite dec_S. replace (10 * n + d <? 10) with false by (symmetry; apply Z.ltb_ge; lia).
  replace ((10 * n + d) / 10) with n.
  2:{ apply Z.div_unique with d; lia. }
  replace ((10 * n + d) mod 10) with d.
  2:{ apply Z.mod_unique with n; lia. }
  f_equal.
  pose proof (log2_fuel (10 * n + d) ltac:(lia)) as H.
  destruct (Z.to_nat (Z.log2 (10 * n + d))) as [|k] eqn:Ek.
  { change (2 ^ Z.of_nat 1) with 2 in H. lia. }
  apply dec_fuel_irrel; [lia | | apply log2_fuel; lia].
  rewrite Nat2Z.inj_succ, Z.pow_succ_r in H by lia. lia.
Qed.

Lemma Z_to_string_4 y : 1000 <= y <= 9999 -> Z_to_string y = digits4 y.
Proof.
  intros Hy.
  assert (E1 : y = 10 * (y / 10) + y mod 10) by (apply Z.div_mod; lia).
  assert (E2 : y / 10 = 10 * (y / 100) + y / 10 mod 10).
  { replace (y / 100) with (y / 10 / 10) by (rewrite Z.div_div by lia; reflexivity).
    apply Z.div_mod; lia. }
  assert (E3 : y / 100 = 10 * (y / 1000) + y / 100 mod 10).
  { replace (y / 1000) with (y / 100 / 10) by (rewrite Z.div_div by lia; reflexivity).
    apply Z.div_mod; lia. }
  assert (1 <= y / 1000 < 10).
  { split; [apply Z.div_le_lower_bound | apply Z.div_lt_upper_bound]; lia. }
  assert (0 <= y mod 10 < 10) by (apply Z.mod_pos_bound; lia).
  assert (0 <= y / 10 mod 10 < 10) by (apply Z.mod_pos_bound; lia).
  assert (0 <= y / 100 mod 10 < 10) by (apply Z.mod_pos_bound; lia).
  rewrite E1 at 1. rewrite Z_to_string_snoc by lia.
  rewrite E2 at 1. rewrite Z_to_string_snoc by lia.
  rewrite E3 at 1. rewrite Z_to_string_snoc by lia.
  rewrite Z_to_string_digit by lia. reflexivity.
Qed.

Lemma Z_to_string_date y m d :
  1000 <= y <= 9999 -> 0 <= m < 100 -> 0 <= d < 100 ->
  Z_to_string (y * 10000 + m * 100 + d) = digits4 y +:+ digits2 m +:+ digits2 d.
Proof.
  intros Hy Hm Hd.
  assert (0 <= m mod 10 < 10) by (apply Z.mod_pos_bound; lia).
  assert (0 <= d mod 10 < 10) by (apply Z.mod_pos_bound; lia).
  assert (0 <= m / 10 < 10).
  { split; [apply Z.div_pos | apply Z.div_lt_upper_bound]; lia. }
  assert (0 <= d / 10 < 10).
  { split; [apply Z.div_pos | apply Z.div_lt_upper_bound]; lia. }
  pose proof (Z.div_mod m 10 ltac:(lia)) as Em.
  pose proof (Z.div_mod d 10 ltac:(lia)) as Ed.
  replace (y * 10000 + m * 100 + d)
    with (10 * (10 * (10 * (10 * y + m / 10) + m mod 10) + d / 10) + d mod 10) by lia.
  rewrite !Z_to_string_snoc by lia.
  rewrite Z_to_string_4 by lia. reflexivity.
Qed.

Lemma digit_val_char k : 0 <= k < 10 -> digit_val (digit_char k) = Some k.
Proof.
  intros Hk.
  assert (Hc : k = 0 \/ k = 1 \/ k = 2 \/ k = 3 \/ k = 4 \/ k = 5 \/ k = 6 \/ k = 7 \/
               k = 8 \/ k = 9) by lia.
  repeat destruct Hc as [-> | Hc]; try subst k; reflexivity.
Qed.

Lemma digit_char_zero k : 0 <= k < 10 -> Ascii.eqb (digit_char k) "0" = (k =? 0).
Proof.
  intros Hk.
  assert (Hc : k = 0 \/ k = 1 \/ k = 2 \/ k = 3 \/ k = 4 \/ k = 5 \/ k = 6 \/ k = 7 \/
               k = 8 \/ k = 9) by lia.
  repeat destruct Hc as [-> | Hc]; try subst k; reflexivity.
Qed.


Example ex_date : dateString (JNum 20230105) = "January 5, 2023".
Proof. reflexivity. Qed.

(** ** The DOM: searching and updating *)

Lemma find_node_Elem p t a cs :
  find_node p (Elem t a cs) = if p t a then Some [] else find_forest p cs.
Proof.
  simpl. destruct (p t a); [reflexivity|].
  induction cs as [|c cs IH]; [reflexivity|].
  simpl. destruct (find_node p c); [reflexivity|]. now rewrite IH.
Qed.

Lemma find_forest_nonempty p f : find_forest p f <> Some [].
Proof.
  induction f as [|c f IH]; simpl; [discriminate|].
  destruct (find_node p c); [discriminate|].
  destruct (find_forest p f) as [[|? ?]|]; simpl; congruence.
Qed.





Lemma find_node_root p t a cs cs' :
  find_node p (Elem t a cs) = Some [] -> find_node p (Elem t a cs') = Some [].
Proof.
  rewrite !find_node_Elem. destruct (p t a); [reflexivity|].
  intros H. now apply find_forest_nonempty in H.
Qed.











(** ** [processPage] *)

(** C6: a file whose front matter sets [publish] to ["no"] is skipped
    silently: the transform returns at once, nothing is written or logged and
    nothing is added to [blogPages]. *)
Theorem processPage_unpublished E pagePath file st :
  attr (attributes file) "publish" = JStr "no" ->
  processPage E pagePath file st = (Ok tt, st).
Proof.
  intros H. unfold processPage. rewrite bool_decide_eq_true_2 by exact H. reflexivity.
Qed.

Lemma processPage_unpublished_witness :
  attr (attributes unpublished) "publish" = JStr "no" /\
  processPage (demo_env 2) "pages/blog/draft.md" unpublished initial = (Ok tt, initial).
Proof.
  split; [reflexivity|]. apply processPage_unpublished. reflexivity.
Defined.

(** The document of a page after the template is loaded, the head replaced
    and the Markdown inserted (lines 105-128), when those steps succeed. *)
Lemma insertDate_no_h2 date d :
  find_forest (byTag "h2") (nodes d) = None ->
  insertDate date d = Throw (TypeError "dateInsert[0]").
Proof. intros H. unfold insertDate. rewrite H. reflexivity. Qed.

(** C10: with a date in the front matter and no [h2] in the document, the
    transform throws when it reads the parent of the first [h2]; the page is
    neither written nor collected. *)
Theorem processPage_date_without_h2 E pagePath file st d h d1 :
  attr (attributes file) "publish" <> JStr "no" ->
  templates E !! templatePath (attributes file) = Some d ->
  componentHead E = Some h ->
  set_head h d = Ok d1 ->
  truthy (attr (attributes file) "date") = true ->
  find_forest (byTag "h2")
    (nodes (default d1 (setContent (marked_parse E (body file)) d1))) = None ->
  processPage E pagePath file st =
    (Throw (TypeError "dateInsert[0]"),
     mkState (blogPages st)
       (trace st ++
        match setContent (marked_parse E (body file)) d1 with
        | Some _ => []
        | None => [EvLog (missing_content_warning (templatePath (attributes file)))]
        end)).
Proof.
  intros Hpub Htpl Hhead Hset Hdate Hh2.
  unfold processPage. rewrite bool_decide_eq_false_2 by exact Hpub.
  unfold bind, fromFile, readComponentHead, lift. rewrite Htpl, Hhead, Hset, Hdate.
  destruct (setContent (marked_parse E (body file)) d1) as [d2|] eqn:Ec;
    cbn [default from_option id] in Hh2.
  - cbn [ret]. rewrite (insertDate_no_h2 _ _ Hh2), app_nil_r. now destruct st.
  - cbn [console_log emit ret blogPages trace].
    rewrite (insertDate_no_h2 _ _ Hh2). reflexivity.
Qed.













(** A collected page fares no better: a post of [blog/] whose template has
    no [page-content] element is pushed on [blogPages], and the aggregation
    throws when it reads the content of the excerpt (line 207); the post is
    never written. *)
Example collected_page_without_insertion_point :
  find_forest (byId "page-content") (nodes bare_template) = None /\
  let r := build (demo_env 2) in_order
             [Dir "blog" [File "a.md" (with_template "bare" (dated 20230105 "text"))]]
             initial in
  fst r = Throw (TypeError "page-content") /\
  written (trace (snd r)) = [].
Proof. vm_compute. repeat split. Qed.

Lemma processPage_date_without_h2_witness :
  fst (processPage plain_env "pages/about.md" (dated 20230105 "text") initial) =
  Throw (TypeError "dateInsert[0]").
Proof.
  erewrite (processPage_date_without_h2 plain_env "pages/about.md"
              (dated 20230105 "text") initial demo_template).
  - reflexivity.
  - intros H. vm_compute in H. discriminate.
  - reflexivity.
  - reflexivity.
  - reflexivity.
  - reflexivity.
  - reflexivity.
Defined.

(** ** The sort of [blogPages] *)

Lemma sort_insert_perm x l : sort_insert x l ≡ₚ x :: l.
Proof.
  induction l as [|y l IH]; simpl; [reflexivity|].
  destruct (0 <? compareDates x y); [|reflexivity].
  rewrite IH. apply perm_swap.
Qed.

Lemma sort_pages_perm l : sort_pages l ≡ₚ l.
Proof.
  induction l as [|x l IH]; simpl; [reflexivity|].
  rewrite sort_insert_perm. now rewrite IH.
Qed.

Lemma sort_pages_length l : length (sort_pages l) = length l.
Proof. apply Permutation_length, sort_pages_perm. Qed.

Lemma compareDates_num x y a b :
  dateNum x = Some a -> dateNum y = Some b -> compareDates x y = b - a.
Proof. unfold compareDates, dateNum. now intros -> ->. Qed.

Lemma sort_insert_sorted x l :
  is_Some (dateNum x) -> Forall (fun p => is_Some (dateNum p)) l ->
  StronglySorted not_older l -> StronglySorted not_older (sort_insert x l).
Proof.
  intros [a Ha] Hall Hs. induction Hs as [|y l Hs IH Hy]; simpl.
  - repeat constructor.
  - inversion Hall as [|? ? [b Hb] Hall']; subst.
    rewrite (compareDates_num x y a b) by assumption.
    destruct (0 <? b - a) eqn:E.
    + apply Z.ltb_lt in E. constructor; [now apply IH|].
      rewrite sort_insert_perm. constructor; [|assumption].
      unfold not_older. rewrite Ha, Hb. lia.
    + apply Z.ltb_ge in E. constructor; [now constructor|].
      constructor; [unfold not_older; rewrite Ha, Hb; lia|].
      rewrite Forall_forall in Hy, Hall'. apply Forall_forall. intros z Hz.
      specialize (Hy z Hz). destruct (Hall' z Hz) as [c Hc].
      unfold not_older in *. rewrite Ha, Hc. rewrite Hb, Hc in Hy. lia.
Qed.

Lemma sort_pages_sorted l :
  Forall (fun p => is_Some (dateNum p)) l -> StronglySorted not_older (sort_pages l).
Proof.
  induction 1 as [|x l Hx Hl IH]; simpl; [constructor|].
  apply sort_insert_sorted; [assumption | | assumption].
  now rewrite sort_pages_perm.
Qed.

Lemma sort_insert_stable d x l :
  is_Some (dateNum x) -> Forall (fun p => is_Some (dateNum p)) l ->
  filter (fun p => dateNum p = Some d) (sort_insert x l) =
  filter (fun p => dateNum p = Some d) (x :: l).
Proof.
  intros [a Ha] Hall. induction Hall as [|y l [b Hb] Hall IH]; simpl; [reflexivity|].
  rewrite (compareDates_num x y a b) by assumption.
  destruct (0 <? b - a) eqn:E; [|reflexivity].
  apply Z.ltb_lt in E.
  rewrite (filter_cons _ y), IH, !filter_cons.
  repeat case_decide; try reflexivity.
  assert (a = d) by congruence. assert (b = d) by congruence. lia.
Qed.

Lemma sort_pages_stable d l :
  Forall (fun p => is_Some (dateNum p)) l ->
  filter (fun p => dateNum p = Some d) (sort_pages l) =
  filter (fun p => dateNum p = Some d) l.
Proof.
  induction 1 as [|x l Hx Hl IH]; simpl; [reflexivity|].
  rewrite sort_insert_stable; [| assumption | now rewrite sort_pages_perm].
  rewrite !filter_cons, IH. reflexivity.
Qed.

(** ** Reasoning about the monad *)

Lemma bind_Ok {A B} (m : M A) (k : A -> M B) st b st' :
  bind m k st = (Ok b, st') ->
  exists a st1, m st = (Ok a, st1) /\ k a st1 = (Ok b, st').
Proof.
  unfold bind. destruct (m st) as [[a| | |] st1]; try discriminate. eauto.
Qed.

Lemma lift_Ok {A} (o : outcome A) st a st' :
  lift o st = (Ok a, st') -> o = Ok a /\ st' = st.
Proof. unfold lift. now intros [= -> ->]. Qed.


Lemma post_writes_app l1 l2 : post_writes (l1 ++ l2) = post_writes l1 ++ post_writes l2.
Proof. apply omap_app. Qed.

Lemma index_writes_app l1 l2 : index_writes (l1 ++ l2) = index_writes l1 ++ index_writes l2.
Proof. apply omap_app. Qed.

Lemma blogIndex_calls_app l1 l2 :
  blogIndex_calls (l1 ++ l2) = (blogIndex_calls l1 + blogIndex_calls l2)%nat.
Proof. unfold blogIndex_calls. now rewrite omap_app, length_app. Qed.

Lemma post_writes_post f d evs :
  post_writes (EvWrite PostOut f d :: evs) = (f, d) :: post_writes evs.
Proof. reflexivity. Qed.

(** ** [blogIndex]: the loop over a batch *)

Lemma batch_loop_Ok originalBlogPages total batch :
  forall agg idx st r st',
  batch_loop originalBlogPages total batch agg idx st = (Ok r, st') ->
  snd r = (idx + length batch)%nat /\
  blogPages st' = blogPages st /\
  exists evs,
    trace st' = trace st ++ evs /\
    index_writes evs = [] /\
    blogIndex_calls evs = O /\
    length (post_writes evs) = length batch /\
    forall k p, batch !! k = Some p ->
      exists data,
        individualPost originalBlogPages total (idx + k) p = Ok data /\
        post_writes evs !! k = Some (postPath p, data).
Proof.
  induction batch as [|p batch IH]; intros agg idx st r st' H.
  - injection H as <- <-. cbn. split; [lia|]. split; [reflexivity|].
    exists []. rewrite app_nil_r. repeat split. intros k p Hk. discriminate.
  - cbn [batch_loop] in H.
    apply bind_Ok in H as (ex & s1 & Hex & H). apply lift_Ok in Hex as [Hex ->].
    apply bind_Ok in H as (data & s1 & Hd & H). apply lift_Ok in Hd as [Hd ->].
    apply bind_Ok in H as ([] & s1 & Hw & H). injection Hw as <-.
    apply IH in H as (Hidx & Hbp & evs & Htr & Hiw & Hbc & Hlen & Hposts).
    cbn [blogPages trace] in *.
    split; [cbn [length]; lia|]. split; [assumption|].
    exists (EvWrite PostOut (postPath p) data :: evs).
    split; [rewrite Htr, <- app_assoc; reflexivity|].
    split; [assumption|]. split; [assumption|].
    rewrite post_writes_post.
    split; [cbn [length]; now rewrite Hlen|].
    intros [|k] p' Hk; cbn in Hk.
    + injection Hk as <-. exists data. rewrite Nat.add_0_r. auto.
    + destruct (Hposts k p' Hk) as (data' & Hd' & Hl).
      exists data'. replace (idx + S k)%nat with (S idx + k)%nat by lia. auto.
Qed.


Lemma ceil_div_zero p : (0 < p)%nat -> ceil_div 0 p = O.
Proof. intros Hp. unfold ceil_div. apply Nat.div_small. lia. Qed.

Lemma ceil_div_step n p :
  (0 < p)%nat -> (0 < n)%nat -> ceil_div n p = S (ceil_div (n - p) p).
Proof.
  intros Hp Hn. unfold ceil_div.
  destruct (Nat.le_gt_cases p n) as [Hle|Hlt].
  - replace (n + p - 1)%nat with ((n - p + p - 1) + 1 * p)%nat by lia.
    rewrite Nat.div_add by lia. lia.
  - replace (n - p)%nat with O by lia.
    rewrite (Nat.div_small (0 + p - 1) p) by lia.
    symmetry. apply (Nat.div_unique _ _ _ (n - 1)%nat); lia.
Qed.

(** ** [blogIndex]: the loop over the index pages *)

Lemma index_loop_Ok E originalBlogPages total tip :
  (0 < postsPerPage E)%nat ->
  forall fuel pageCount idx st st',
  index_loop E originalBlogPages total tip fuel pageCount idx st = (Ok tt, st') ->
  blogPages st' = [] /\
  exists evs,
    trace st' = trace st ++ evs /\
    blogIndex_calls evs = O /\
    index_writes evs =
      map indexPath (seq pageCount (ceil_div (length (blogPages st)) (postsPerPage E))) /\
    length (post_writes evs) = length (blogPages st) /\
    forall k p, blogPages st !! k = Some p ->
      exists data,
        individualPost originalBlogPages total (idx + k) p = Ok data /\
        post_writes evs !! k = Some (postPath p, data).
Proof.
  intros Hp fuel. induction fuel as [|fuel IH]; intros pageCount idx st st' H.
  - destruct st as [pages tr]. destruct pages as [|p0 pages]; [|discriminate].
    injection H as <-. cbn [blogPages trace length]. split; [reflexivity|].
    exists []. rewrite app_nil_r, ceil_div_zero by assumption.
    repeat split. intros k p Hk. discriminate.
  - destruct st as [pages tr]. destruct pages as [|p0 pages].
    { injection H as <-. cbn [blogPages trace length]. split; [reflexivity|].
      exists []. rewrite app_nil_r, ceil_div_zero by assumption.
      repeat split. intros k p Hk. discriminate. }
    cbn [index_loop] in H. unfold get_blogPages at 1 in H.
    cbn [bind blogPages] in H.
    apply bind_Ok in H as (doc & s1 & Hdoc & H).
    unfold fromFile in Hdoc. apply lift_Ok in Hdoc as [Hdoc ->].
    apply bind_Ok in H as (head & s1 & Hhead & H).
    unfold readComponentHead in Hhead. apply lift_Ok in Hhead as [Hhead ->].
    apply bind_Ok in H as (doc1 & s1 & Hdoc1 & H). apply lift_Ok in Hdoc1 as [Hdoc1 ->].
    apply bind_Ok in H as ([] & s1 & Hset & H). injection Hset as <-.
    apply bind_Ok in H as (r & s2 & Hbatch & H).
    apply batch_loop_Ok in Hbatch as (Hidx & Hbp & evs1 & Htr1 & Hiw1 & Hbc1 & Hlen1 & Hposts1).
    apply bind_Ok in H as (doc2 & s3 & Hdoc2 & H). apply lift_Ok in Hdoc2 as [Hdoc2 ->].
    apply bind_Ok in H as (doc3 & s3 & Hdoc3 & H). apply lift_Ok in Hdoc3 as [Hdoc3 ->].
    apply bind_Ok in H as (html & s3 & Hhtml & H). apply lift_Ok in Hhtml as [Hhtml ->].
    apply bind_Ok in H as ([] & s3 & Hw & H). injection Hw as <-.
    apply IH in H as (Hfinal & evs2 & Htr2 & Hbc2 & Hiw2 & Hlen2 & Hposts2).
    cbn [blogPages trace] in *.
    set (pages0 := p0 :: pages) in *.
    set (ppp := postsPerPage E) in *.
    split; [assumption|].
    exists (evs1 ++ EvWrite IndexOut (indexPath pageCount) (Html "html" html) :: evs2).
    split; [rewrite Htr2, Htr1, <- !app_assoc; reflexivity|].
    split; [rewrite blogIndex_calls_app, Hbc1; exact Hbc2|].
    split.
    { rewrite index_writes_app, Hiw1. cbn [app].
      change (index_writes (EvWrite IndexOut ?f ?d :: evs2)) with (f :: index_writes evs2).
      rewrite Hiw2, Hbp, length_drop.
      rewrite (ceil_div_step (length pages0) ppp) by (cbn; lia). reflexivity. }
    assert (Hblen : length (take ppp pages0) = (ppp `min` length pages0)%nat)
      by apply length_take.
    split.
    { rewrite post_writes_app. 
      change (post_writes (EvWrite IndexOut ?f ?d :: evs2)) with (post_writes evs2).
      rewrite length_app, Hlen1, Hlen2, Hbp, length_drop. lia. }
    intros k p Hk.
    rewrite post_writes_app.
    change (post_writes (EvWrite IndexOut ?f ?d :: evs2)) with (post_writes evs2).
    assert (Hkn : (k < length pages0)%nat) by (apply lookup_lt_is_Some; eauto).
    destruct (Nat.lt_ge_cases k ppp) as [Hlt|Hge].
    + destruct (Hposts1 k p) as (data & Hd & Hl).
      { rewrite lookup_take_lt by assumption. assumption. }
      exists data. split; [assumption|].
      rewrite lookup_app_l by (rewrite Hlen1; lia). assumption.
    + destruct (Hposts2 (k - ppp)%nat p) as (data & Hd & Hl).
      { rewrite Hbp, lookup_drop. replace (ppp + (k - ppp))%nat with k by lia. assumption. }
      exists data. split.
      * rewrite <- Hd. f_equal. rewrite Hidx. lia.
      * rewrite lookup_app_r by (rewrite Hlen1; lia).
        rewrite Hlen1. replace (k - length (take ppp pages0))%nat with (k - ppp)%nat by lia.
        assumption.
Qed.

(** ** Nothing but the index loop can fail to end *)

Lemma settles_mbind {A B} (o : outcome A) (k : A -> outcome B) :
  settles o -> (forall a, settles (k a)) -> settles (o ≫= k).
Proof. destruct o; cbn; auto. Qed.

Lemma settles_first_or_throw what o : settles (first_or_throw what o).
Proof. now destruct o. Qed.

Ltac settle :=
  repeat first
    [ exact I
    | apply settles_first_or_throw
    | apply settles_mbind; [|intros ?]
    | match goal with
      | |- settles (if ?b then _ else _) => destruct b
      | |- settles (match ?x with _ => _ end) => destruct x
      end ].

Lemma set_head_settles h d : settles (set_head h d).
Proof. unfold set_head. settle. Qed.

Lemma outerHtml_settles d : settles (outerHtml d).
Proof. unfold outerHtml. settle. Qed.

Lemma excerpt_settles p : settles (excerpt p).
Proof. unfold excerpt. settle. Qed.

Lemma individualPost_settles orig total idx p : settles (individualPost orig total idx p).
Proof.
  unfold individualPost, removeReadMore, addPrevNext, entry_or_throw, appendToContent,
    outerHtml.
  settle.
Qed.

Lemma setInnerById_settles id cs d : settles (setInnerById id cs d).
Proof. unfold setInnerById. settle. Qed.

Lemma setAttributeById_settles id k v d : settles (setAttributeById id k v d).
Proof. unfold setAttributeById. settle. Qed.

Lemma paginate_settles pageCount tip d : settles (paginate pageCount tip d).
Proof.
  unfold paginate. settle;
    first [apply setInnerById_settles | apply setAttributeById_settles].
Qed.

Lemma lift_settles_step {A B} (o : outcome A) (k : A -> M B) st :
  settles o -> (forall a, o = Ok a -> settles (fst (k a st))) ->
  settles (fst (bind (lift o) k st)).
Proof. unfold bind, lift. destruct o; cbn; auto. Qed.

Lemma bind_settles_step {A B} (m : M A) (k : A -> M B) st :
  settles (fst (m st)) ->
  (forall a s1, m st = (Ok a, s1) -> settles (fst (k a s1))) ->
  settles (fst (bind m k st)).
Proof. unfold bind. destruct (m st) as [[a| | |] s1]; cbn; auto. Qed.

Lemma batch_loop_settles originalBlogPages total batch :
  forall agg idx st, settles (fst (batch_loop originalBlogPages total batch agg idx st)).
Proof.
  induction batch as [|p batch IH]; intros agg idx st; [exact I|].
  cbn [batch_loop].
  apply lift_settles_step; [apply excerpt_settles | intros ex _].
  apply lift_settles_step; [apply individualPost_settles | intros data _].
  cbn. apply IH.
Qed.

Lemma index_loop_settles E originalBlogPages total tip :
  (0 < postsPerPage E)%nat ->
  forall fuel pageCount idx st,
  (length (blogPages st) <= fuel)%nat ->
  settles (fst (index_loop E originalBlogPages total tip fuel pageCount idx st)).
Proof.
  intros Hp fuel. induction fuel as [|fuel IH]; intros pageCount idx [pages tr] Hlen;
    cbn [blogPages] in Hlen.
  - destruct pages; [exact I | cbn in Hlen; lia].
  - destruct pages as [|p0 pages]; [exact I|].
    cbn [index_loop]. unfold get_blogPages at 1. cbn [bind blogPages].
    unfold fromFile, readComponentHead.
    apply lift_settles_step; [settle | intros doc _].
    apply lift_settles_step; [settle | intros head _].
    apply lift_settles_step; [apply set_head_settles | intros doc1 _].
    apply bind_settles_step; [exact I | intros [] s1 [= <-]].
    apply bind_settles_step; [apply batch_loop_settles | intros r s2 Hbatch].
    apply batch_loop_Ok in Hbatch as (_ & Hbp & _). cbn [blogPages] in Hbp.
    apply lift_settles_step; [apply setInnerById_settles | intros doc2 _].
    apply lift_settles_step; [apply paginate_settles | intros doc3 _].
    apply lift_settles_step; [apply outerHtml_settles | intros html _].
    cbn. apply IH. cbn [blogPages]. rewrite Hbp, length_drop. cbn [length] in *. lia.
Qed.

Lemma blogIndex_unfold E st :
  blogIndex E st =
  index_loop E (sort_pages (blogPages st)) (length (sort_pages (blogPages st)))
    (ceil_div (length (sort_pages (blogPages st))) (postsPerPage E))
    (length (sort_pages (blogPages st))) 1 0
    (mkState (sort_pages (blogPages st)) (trace st ++ [EvBlogIndex])).
Proof. reflexivity. Qed.

Lemma blogIndex_settles E st :
  (0 < postsPerPage E)%nat -> settles (fst (blogIndex E st)).
Proof. intros Hp. rewrite blogIndex_unfold. now apply index_loop_settles. Qed.

Lemma blogIndex_Ok E st st' :
  (0 < postsPerPage E)%nat ->
  blogIndex E st = (Ok tt, st') ->
  blogPages st' = [] /\
  exists evs,
    trace st' = trace st ++ EvBlogIndex :: evs /\
    blogIndex_calls evs = O /\
    index_writes evs =
      map indexPath (seq 1 (ceil_div (length (blogPages st)) (postsPerPage E))) /\
    length (post_writes evs) = length (blogPages st) /\
    forall k p, sort_pages (blogPages st) !! k = Some p ->
      exists data,
        individualPost (sort_pages (blogPages st)) (length (blogPages st)) k p = Ok data /\
        post_writes evs !! k = Some (postPath p, data).
Proof.
  intros Hp H. rewrite blogIndex_unfold in H.
  apply index_loop_Ok in H as (Hfinal & evs & Htr & Hbc & Hiw & Hlen & Hposts);
    [|assumption].
  cbn [blogPages trace] in *. rewrite sort_pages_length in *.
  split; [assumption|]. exists evs.
  split; [rewrite Htr, <- app_assoc; reflexivity|]. auto.
Qed.

(** ** The aggregation pages and the Newer/Older controls *)

(** C1 as the code has it: for a positive batch size the aggregation always
    comes to an end, and when it returns it has written
    [ceil(n / postsPerPage)] index pages for [n] collected pages,
    [index.html] and then [2.html], [3.html], ...; for no collected page it
    writes none. *)
Theorem aggregation_page_count E st :
  (0 < postsPerPage E)%nat ->
  settles (fst (blogIndex E st)) /\
  forall st',
  blogIndex E st = (Ok tt, st') ->
  exists evs,
    trace st' = trace st ++ evs /\
    index_writes evs =
      map indexPath (seq 1 (ceil_div (length (blogPages st)) (postsPerPage E))) /\
    length (index_writes evs) = ceil_div (length (blogPages st)) (postsPerPage E) /\
    (blogPages st = [] -> index_writes evs = []).
Proof.
  intros Hp. split; [now apply blogIndex_settles|]. intros st' H.
  apply blogIndex_Ok in H as (_ & evs & Htr & _ & Hiw & _); [|assumption].
  exists (EvBlogIndex :: evs). split; [assumption|].
  change (index_writes (EvBlogIndex :: evs)) with (index_writes evs).
  split; [assumption|]. split.
  - now rewrite Hiw, length_map, length_seq.
  - intros Hnil. rewrite Hiw, Hnil. cbn [length]. now rewrite ceil_div_zero.
Qed.





Lemma aggregation_page_count_witness :
  settles (fst (blogIndex (demo_env 2) five_posts)) /\
  exists evs,
    trace (snd (blogIndex (demo_env 2) five_posts)) = trace five_posts ++ evs /\
    index_writes evs =
      map indexPath (seq 1 (ceil_div (length (blogPages five_posts)) (postsPerPage (demo_env 2)))) /\
    length (index_writes evs) =
      ceil_div (length (blogPages five_posts)) (postsPerPage (demo_env 2)) /\
    (blogPages five_posts = [] -> index_writes evs = []).
Proof.
  destruct (aggregation_page_count (demo_env 2) five_posts) as [Hends Hpages].
  - cbn. lia.
  - split; [exact Hends|]. apply Hpages. vm_compute. reflexivity.
Defined.

(** C1 as stated fails for an empty collection: the loop body never runs
    and no aggregation page is written. *)
Lemma no_index_page_for_empty_collection :
  let r := blogIndex (demo_env 2) initial in
  fst r = Ok tt /\ index_writes (trace (snd r)) = [] /\
  ceil_div (length (blogPages initial)) (postsPerPage (demo_env 2)) = O.
Proof. vm_compute. repeat split. Qed.

Example five_posts_three_pages :
  index_writes (trace (snd (blogIndex (demo_env 2) five_posts))) =
  ["public/index.html"; "public/2.html"; "public/3.html"].
Proof. vm_compute. reflexivity. Qed.

(** ** [processDirectory] *)

(** What a page transform does to the shared state: it appends events of its
    own kind to the trace and, at most, its page to [blogPages]. *)
Lemma page_effect_refl st : page_effect st st.
Proof. exists [], []. now rewrite !app_nil_r. Qed.

Lemma page_effect_trans st1 st2 st3 :
  page_effect st1 st2 -> page_effect st2 st3 -> page_effect st1 st3.
Proof.
  intros (e1 & p1 & Ht1 & Hb1 & F1) (e2 & p2 & Ht2 & Hb2 & F2).
  exists (e1 ++ e2), (p1 ++ p2). rewrite Ht2, Ht1, Hb2, Hb1, <- !app_assoc.
  repeat split. now apply Forall_app.
Qed.

Lemma page_effect_log st msg :
  page_effect st (mkState (blogPages st) (trace st ++ [EvLog msg])).
Proof. exists [EvLog msg], []. cbn. rewrite app_nil_r. repeat split. now repeat constructor. Qed.

Lemma page_effect_write st f data :
  page_effect st (mkState (blogPages st) (trace st ++ [EvWrite PageOut f data])).
Proof.
  exists [EvWrite PageOut f data], []. cbn. rewrite app_nil_r. repeat split.
  now repeat constructor.
Qed.

Lemma page_effect_push st p :
  page_effect st (mkState (blogPages st ++ [p]) (trace st)).
Proof. exists [], [p]. cbn. rewrite app_nil_r. repeat split. constructor. Qed.

Lemma page_like_ret {A} (a : A) : page_like (ret a).
Proof. intros st. split; [apply page_effect_refl | discriminate]. Qed.

Lemma page_like_lift {A} (o : outcome A) : settles o -> page_like (lift o).
Proof.
  intros Ho st. split; [apply page_effect_refl|]. cbn. intros ->. exact Ho.
Qed.

Lemma page_like_bind {A B} (m : M A) (k : A -> M B) :
  page_like m -> (forall a, page_like (k a)) -> page_like (bind m k).
Proof.
  intros Hm Hk st. destruct (Hm st) as [He Hd]. unfold bind.
  destruct (m st) as [[a| | |] s1]; cbn in *; try (split; [assumption | congruence]).
  destruct (Hk a s1) as [He' Hd']. split; [|assumption].
  eapply page_effect_trans; eassumption.
Qed.

Lemma page_like_log msg : page_like (console_log msg).
Proof. intros st. split; [apply page_effect_log | discriminate]. Qed.

Lemma page_like_write f data : page_like (writeFile PageOut f data).
Proof. intros st. split; [apply page_effect_write | discriminate]. Qed.

Lemma page_like_exit {A} c : page_like (@process_exit A c).
Proof. intros st. split; [apply page_effect_refl | discriminate]. Qed.

Lemma page_like_push p :
  page_like (bind get_blogPages (fun pages => set_blogPages (pages ++ [p]))).
Proof. intros st. split; [apply page_effect_push | discriminate]. Qed.

Lemma processPage_page_like E pagePath file : page_like (processPage E pagePath file).
Proof.
  unfold processPage.
  destruct (bool_decide _); [apply page_like_ret|].
  apply page_like_bind; [apply page_like_lift; settle | intros d].
  apply page_like_bind; [apply page_like_lift; settle | intros h].
  apply page_like_bind; [apply page_like_lift, set_head_settles | intros d1].
  apply page_like_bind.
  { destruct (setContent _ _); [apply page_like_ret|].
    apply page_like_bind; [apply page_like_log | intros _; apply page_like_ret]. }
  intros d2. apply page_like_bind.
  { destruct (truthy _); [|apply page_like_ret].
    apply page_like_lift. unfold insertDate. settle. }
  intros d3. destruct (find_forest _ _).
  2:{ apply page_like_bind; [apply page_like_log | intros _; apply page_like_exit]. }
  destruct (String.eqb _ _); [apply page_like_push|].
  apply page_like_bind; [apply page_like_lift; settle | intros name].
  apply page_like_bind; [apply page_like_lift, outerHtml_settles | intros html].
  apply page_like_write.
Qed.

Lemma agg_event_calls evs : Forall agg_event evs -> blogIndex_calls evs = O.
Proof.
  induction 1 as [|e evs He _ IH]; [reflexivity|].
  destruct e as [| [] | ]; try contradiction; exact IH.
Qed.

Lemma page_event_calls evs : Forall page_event evs -> blogIndex_calls evs = O.
Proof.
  induction 1 as [|e evs He _ IH]; [reflexivity|].
  destruct e as [| [] | ]; try contradiction; exact IH.
Qed.

Lemma batch_loop_agg originalBlogPages total batch :
  forall agg idx st r st',
  batch_loop originalBlogPages total batch agg idx st = (Ok r, st') ->
  exists evs, trace st' = trace st ++ evs /\ Forall agg_event evs.
Proof.
  induction batch as [|p batch IH]; intros agg idx st r st' H.
  - injection H as <- <-. exists []. now rewrite app_nil_r.
  - cbn [batch_loop] in H.
    apply bind_Ok in H as (ex & s1 & Hex & H). apply lift_Ok in Hex as [Hex ->].
    apply bind_Ok in H as (data & s1 & Hd & H). apply lift_Ok in Hd as [Hd ->].
    apply bind_Ok in H as ([] & s1 & Hw & H). injection Hw as <-.
    apply IH in H as (evs & Htr & Hall). cbn [trace] in Htr.
    exists (EvWrite PostOut (postPath p) data :: evs).
    split; [rewrite Htr, <- app_assoc; reflexivity|].
    constructor; [exact I | assumption].
Qed.

Lemma index_loop_agg E originalBlogPages total tip :
  forall fuel pageCount idx st st',
  index_loop E originalBlogPages total tip fuel pageCount idx st = (Ok tt, st') ->
  exists evs, trace st' = trace st ++ evs /\ Forall agg_event evs.
Proof.
  intros fuel. induction fuel as [|fuel IH]; intros pageCount idx [pages tr] st' H.
  - destruct pages; [|discriminate]. injection H as <-.
    exists []. now rewrite app_nil_r.
  - destruct pages as [|p0 pages].
    { injection H as <-. exists []. now rewrite app_nil_r. }
    cbn [index_loop] in H. unfold get_blogPages at 1 in H. cbn [bind blogPages] in H.
    apply bind_Ok in H as (doc & s1 & Hdoc & H).
    unfold fromFile in Hdoc. apply lift_Ok in Hdoc as [Hdoc ->].
    apply bind_Ok in H as (head & s1 & Hhead & H).
    unfold readComponentHead in Hhead. apply lift_Ok in Hhead as [Hhead ->].
    apply bind_Ok in H as (doc1 & s1 & Hdoc1 & H). apply lift_Ok in Hdoc1 as [Hdoc1 ->].
    apply bind_Ok in H as ([] & s1 & Hset & H). injection Hset as <-.
    apply bind_Ok in H as (r & s2 & Hbatch & H).
    apply batch_loop_agg in Hbatch as (evs1 & Htr1 & Hall1).
    apply bind_Ok in H as (doc2 & s3 & Hdoc2 & H). apply lift_Ok in Hdoc2 as [Hdoc2 ->].
    apply bind_Ok in H as (doc3 & s3 & Hdoc3 & H). apply lift_Ok in Hdoc3 as [Hdoc3 ->].
    apply bind_Ok in H as (html & s3 & Hhtml & H). apply lift_Ok in Hhtml as [Hhtml ->].
    apply bind_Ok in H as ([] & s3 & Hw & H). injection Hw as <-.
    apply IH in H as (evs2 & Htr2 & Hall2). cbn [trace] in *.
    exists (evs1 ++ EvWrite IndexOut (indexPath pageCount) (Html "html" html) :: evs2).
    split; [rewrite Htr2, Htr1, <- !app_assoc; reflexivity|].
    apply Forall_app. split; [assumption|]. constructor; [exact I | assumption].
Qed.

Lemma blogIndex_agg E st st' :
  blogIndex E st = (Ok tt, st') ->
  exists evs, trace st' = trace st ++ EvBlogIndex :: evs /\ Forall agg_event evs.
Proof.
  intros H. rewrite blogIndex_unfold in H.
  apply index_loop_agg in H as (evs & Htr & Hall). cbn [trace] in Htr.
  exists evs. split; [rewrite Htr, <- app_assoc; reflexivity | assumption].
Qed.

(** The transforms awaited by [Promise.all]. *)
Lemma run_tasks_effect E ts :
  forall rejected st, page_effect st (snd (run_tasks E ts rejected st)).
Proof.
  induction ts as [|t ts IH]; intros rejected st; [apply page_effect_refl|].
  cbn [run_tasks].
  destruct (processPage_page_like E (fst t) (snd t) st) as [He _].
  destruct (processPage E (fst t) (snd t) st) as [[[]| | |] s1]; cbn [snd] in *;
    try assumption; (eapply page_effect_trans; [exact He | apply IH]).
Qed.

Lemma ran_to_completion_later E t s1 s2 :
  ran_to_completion E t s1 -> page_effect s1 s2 -> ran_to_completion E t s2.
Proof.
  intros (s & Hs & He) H. exists s. split; [assumption|].
  eapply page_effect_trans; eassumption.
Qed.


(** The loop of [processDirectory] and the recursion into a subdirectory. *)
Lemma walk_entry_Dir E S directoryPath element contents pending st :
  walk_entry E S directoryPath (Dir element contents) pending st =
  (awaiting E S pending
     (processDirectory E S (directoryPath +:+ "/" +:+ element) contents) ;;
   ret pending) st.
Proof.
  cbn [walk_entry]. unfold processDirectory, awaiting.
  assert (Hloop : forall l p s,
    (fix loop (l : list entry) (pending : list task) {struct l} : M (list task) :=
       match l with
       | [] => ret pending
       | c :: l' =>
           pending' <- walk_entry E S (directoryPath +:+ "/" +:+ element) c pending ;;
           loop l' pending'
       end) l p s =
    walk_entries E S (directoryPath +:+ "/" +:+ element) l p s).
  { induction l as [|c l IH]; intros p s; [reflexivity|].
    cbn [walk_entries]. unfold bind in *. cbn beta iota fix.
    destruct (walk_entry _ _ _ c p s) as [[a| | |] s1]; try reflexivity. apply IH. }
  unfold bind in *. rewrite Hloop. reflexivity.
Qed.

Lemma count_dirs_entry_Dir element contents :
  count_dirs_entry (Dir element contents) = S (count_dirs contents).
Proof. reflexivity. Qed.

Section Walk.
Variables (E : env) (S : scheduler).

Lemma walk_entries_ok contents :
  Forall (walk_ok E S) contents ->
  forall directoryPath pending st r st',
  walk_entries E S directoryPath contents pending st = (Ok r, st') ->
  r = pending ++ dispatched directoryPath contents /\
  exists evs, trace st' = trace st ++ evs /\ blogIndex_calls evs = count_dirs contents.
Proof.
  induction 1 as [|c l Hc _ IH]; intros directoryPath pending st r st' H.
  - injection H as <- <-. split; [now rewrite app_nil_r|].
    exists []. now rewrite app_nil_r.
  - cbn [walk_entries] in H. apply bind_Ok in H as (p1 & s1 & H1 & H2).
    apply Hc in H1 as (-> & evs1 & Htr1 & Hc1).
    apply IH in H2 as (-> & evs2 & Htr2 & Hc2).
    split.
    + rewrite <- app_assoc. f_equal. symmetry. apply (omap_app _ [c] l).
    + exists (evs1 ++ evs2). rewrite Htr2, Htr1, <- app_assoc.
      split; [reflexivity|]. rewrite blogIndex_calls_app, Hc1, Hc2. reflexivity.
Qed.

Lemma await_all_Ok pending st st' :
  await_all E S pending st = (Ok tt, st') ->
  exists evs, trace st' = trace st ++ evs /\ Forall page_event evs.
Proof.
  intros H. unfold await_all in H. apply bind_Ok in H as (r & s1 & Hr & H).
  destruct r; [discriminate|]. injection H as <-.
  pose proof (run_tasks_effect E (completion S pending) None st) as He.
  rewrite Hr in He. destruct He as (evs & _ & Htr & _ & Hall). eauto.
Qed.

Lemma processDirectory_ok contents :
  Forall (walk_ok E S) contents ->
  forall directoryPath st st',
  processDirectory E S directoryPath contents st = (Ok tt, st') ->
  exists walk agg,
    trace st' =
      trace st ++ walk ++ EvBlogIndex :: agg ++ [EvWrite CnameOut "public/CNAME" cname] /\
    blogIndex_calls walk = count_dirs contents /\
    Forall agg_event agg.
Proof.
  intros Hall directoryPath st st' H. unfold processDirectory in H.
  apply bind_Ok in H as (pending & s1 & Hwalk & H).
  apply (walk_entries_ok _ Hall) in Hwalk as (_ & evs1 & Htr1 & Hc1).
  apply bind_Ok in H as ([] & s2 & Hawait & H).
  apply await_all_Ok in Hawait as (evs2 & Htr2 & Hp2).
  apply bind_Ok in H as ([] & s3 & Hagg & H).
  apply blogIndex_agg in Hagg as (agg & Htr3 & Hagg).
  injection H as <-. cbn [trace].
  exists (evs1 ++ evs2), agg.
  split; [rewrite Htr3, Htr2, Htr1, <- !app_assoc; reflexivity|].
  split; [|assumption].
  rewrite blogIndex_calls_app, Hc1, (page_event_calls _ Hp2). lia.
Qed.

Lemma walk_entry_ok e : walk_ok E S e.
Proof.
  induction e as [name data|name contents IH] using entry_ind';
    intros directoryPath pending st r st' H.
  - cbn [walk_entry] in H. unfold dispatched. cbn [omap list_omap].
    destruct (negb (startsWith name ".")); injection H as <- <-.
    + split; [reflexivity|]. exists []. now rewrite app_nil_r.
    + split; [now rewrite app_nil_r|]. exists []. now rewrite app_nil_r.
  - rewrite walk_entry_Dir in H. apply bind_Ok in H as ([] & s1 & Hsub & H).
    injection H as <- <-. unfold awaiting in Hsub.
    destruct (processDirectory _ _ _ _ st) as [[[]|e| |] s2] eqn:Hdir; try discriminate.
    2:{ unfold bind in Hsub. destruct (run_tasks _ _ _ _) as [[]]; discriminate. }
    injection Hsub as <-.
    apply (processDirectory_ok _ IH) in Hdir as (walk & agg & Htr & Hc & Hagg).
    split; [now rewrite app_nil_r|].
    eexists. split; [exact Htr|].
    rewrite count_dirs_entry_Dir, blogIndex_calls_app, Hc.
    change (blogIndex_calls (EvBlogIndex :: ?l)) with (Datatypes.S (blogIndex_calls l)).
    rewrite blogIndex_calls_app, (agg_event_calls _ Hagg). cbn. lia.
Qed.
End Walk.

(** C2 as the code has it: a walk that succeeds enters [blogIndex] once for
    every directory of the tree, the root included; the last entry comes when
    the whole tree has been walked and every dispatched transform has
    completed, and it is followed only by the writes of the aggregation and
    then the write of [public/CNAME]. *)
Theorem blogIndex_once_per_directory E S directoryPath contents st st' :
  processDirectory E S directoryPath contents st = (Ok tt, st') ->
  blogIndex_calls (trace st') =
    (blogIndex_calls (trace st) + Datatypes.S (count_dirs contents))%nat /\
  exists walk agg,
    trace st' =
      trace st ++ walk ++ EvBlogIndex :: agg ++ [EvWrite CnameOut "public/CNAME" cname] /\
    blogIndex_calls walk = count_dirs contents /\
    Forall agg_event agg.
Proof.
  intros H.
  apply processDirectory_ok in H as (walk & agg & Htr & Hc & Hagg).
  2:{ apply Forall_forall. intros e _. apply walk_entry_ok. }
  split; [|eauto].
  rewrite Htr, !blogIndex_calls_app, Hc.
  change (blogIndex_calls (EvBlogIndex :: ?l)) with (Datatypes.S (blogIndex_calls l)).
  rewrite blogIndex_calls_app, (agg_event_calls _ Hagg). cbn. lia.
Qed.



Lemma run_tasks_collect E (pg : task -> page) ts :
  (forall t s, t ∈ ts ->
     processPage E (fst t) (snd t) s = (Ok tt, mkState (blogPages s ++ [pg t]) (trace s))) ->
  forall st,
  run_tasks E ts None st = (Ok None, mkState (blogPages st ++ map pg ts) (trace st)).
Proof.
  induction ts as [|t ts IH]; intros Hpush st.
  - cbn. rewrite app_nil_r. now destruct st.
  - cbn [run_tasks]. rewrite (Hpush t st) by left.
    rewrite IH by (intros t' s Ht'; apply Hpush; now right).
    cbn [blogPages trace map]. now rewrite <- app_assoc.
Qed.

(** C3 as the code has it: when the transforms of a directory have all
    completed, [blogPages] holds their pages in the order of completion; the
    sort is a stable sort of that list, descending by date, so pages with
    equal dates keep the order in which their transforms completed. *)
Theorem sort_keeps_completion_order E S (pg : task -> page) pending st :
  (forall t s, t ∈ pending ->
     processPage E (fst t) (snd t) s = (Ok tt, mkState (blogPages s ++ [pg t]) (trace s))) ->
  Forall (fun p => is_Some (dateNum p)) (blogPages st) ->
  (forall t, t ∈ pending -> is_Some (dateNum (pg t))) ->
  let collected := blogPages st ++ map pg (completion S pending) in
  await_all E S pending st = (Ok tt, mkState collected (trace st)) /\
  sort_pages collected ≡ₚ collected /\
  StronglySorted not_older (sort_pages collected) /\
  forall d,
    filter (fun p => dateNum p = Some d) (sort_pages collected) =
    filter (fun p => dateNum p = Some d) collected.
Proof.
  intros Hpush Hst Hdates collected.
  assert (Hall : Forall (fun p => is_Some (dateNum p)) collected).
  { apply Forall_app. split; [assumption|].
    apply Forall_forall. intros p Hp. apply list_elem_of_fmap in Hp as (t & -> & Ht).
    apply Hdates. now rewrite <- (completion_perm S pending). }
  split; [|split; [|split]].
  - unfold await_all, bind.
    rewrite (run_tasks_collect E pg); [reflexivity|].
    intros t s Ht. apply Hpush. now rewrite <- (completion_perm S pending).
  - apply sort_pages_perm.
  - now apply sort_pages_sorted.
  - intros d. now apply sort_pages_stable.
Qed.

(** ** The comment thread *)

Lemma renderComments_from_app C before after : forall l,
  renderComments_from C l (before ++ after) =
  (l' ← renderComments_from C l before; renderComments_from C l' after).
Proof.
  induction before as [|c before IH]; intros l; [reflexivity|].
  cbn [app renderComments_from]. destruct (renderComment C l c); try reflexivity.
  cbn. apply IH.
Qed.

Lemma settles_commentContent C y : settles (commentContent C y).
Proof. unfold commentContent, update_first. settle. Qed.

Lemma orphan_reply_renderComment C commentList ymlParsed :
  truthy (attr ymlParsed "replying_to_uid") = true ->
  find_forest (byId ("comment-" +:+ toString (attr ymlParsed "replying_to_uid")))
    commentList = None ->
  (exists e, renderComment C commentList ymlParsed = Throw e) /\
  (forall a q,
     commentContent C ymlParsed = Ok a ->
     find_forest (byClass "comment-reply-link") a = Some q ->
     renderComment C commentList ymlParsed = Throw (TypeError "querySelector(..).after")).
Proof.
  intros Hreply Hnone. unfold renderComment. rewrite Hreply. cbn [negb].
  pose proof (settles_commentContent C ymlParsed) as Hs.
  destruct (commentContent C ymlParsed) as [a|e| |]; try contradiction; cbn.
  - destruct (find_forest (byClass "comment-reply-link") a) as [q|] eqn:Hq; cbn.
    + rewrite Hnone. cbn. split; [eauto|]. intros a' q' [= <-] _. reflexivity.
    + split; [eauto|]. intros a' q' [= <-]. rewrite Hq. discriminate.
  - split; [eauto|]. discriminate.
Qed.

(** C9 as the code has it: when a reply names a parent that no element of
    the list rendered so far carries as its id, the rendering of the thread
    throws and produces no list, with or without the reply: once the
    reply's own article is built, [querySelector] returns null and the call
    of [.after] on it is a TypeError. *)
Theorem orphan_reply_throws C before orphan after rendered :
  renderComments_from C [Elem "h2" [] [Text "Comments"]] before = Ok rendered ->
  truthy (attr orphan "replying_to_uid") = true ->
  find_forest (byId ("comment-" +:+ toString (attr orphan "replying_to_uid")))
    rendered = None ->
  (exists e, commentListDiv C (before ++ orphan :: after) = Throw e) /\
  (forall a q,
     commentContent C orphan = Ok a ->
     find_forest (byClass "comment-reply-link") a = Some q ->
     commentListDiv C (before ++ orphan :: after) =
       Throw (TypeError "querySelector(..).after")).
Proof.
  intros Hbefore Hreply Hnone. unfold commentListDiv.
  rewrite renderComments_from_app, Hbefore. cbn [mbind outcome_bind renderComments_from].
  destruct (orphan_reply_renderComment C rendered orphan Hreply Hnone) as [[e He] Hafter].
  split.
  - exists e. now rewrite He.
  - intros a q Ha Hq. now rewrite (Hafter a q Ha Hq).
Qed.

Lemma orphan_reply_throws_witness :
  (exists e,
     commentListDiv demo_comment_env
       ([top_comment "1" "Ann" "Hello"] ++ reply_comment "2" "9" "Bob" "Hi" :: []) =
     Throw e) /\
  (forall a q,
     commentContent demo_comment_env (reply_comment "2" "9" "Bob" "Hi") = Ok a ->
     find_forest (byClass "comment-reply-link") a = Some q ->
     commentListDiv demo_comment_env
       ([top_comment "1" "Ann" "Hello"] ++ reply_comment "2" "9" "Bob" "Hi" :: []) =
     Throw (TypeError "querySelector(..).after")).
Proof.
  eapply (orphan_reply_throws demo_comment_env [top_comment "1" "Ann" "Hello"]
            (reply_comment "2" "9" "Bob" "Hi") []).
  - reflexivity.
  - reflexivity.
  - reflexivity.
Defined.

(** C9 as stated fails: the reply to a comment that does not exist makes the
    rendering throw; neither a list with a dangling node nor any list at all
    results. *)
Lemma reply_to_missing_parent_throws :
  commentListDiv demo_comment_env
    [top_comment "1" "Ann" "Hello"; reply_comment "2" "9" "Bob" "Hi"] =
  Throw (TypeError "querySelector(..).after").
Proof. vm_compute. reflexivity. Qed.

Example reply_follows_its_parent :
  match commentListDiv demo_comment_env
          [top_comment "1" "Ann" "Hello"; top_comment "3" "Cy" "Yo";
           reply_comment "2" "1" "Bob" "Hi"] with
  | Ok (Elem _ _ l) => map (fun n => match n with
                                     | Elem _ a _ => default "" (get_attr "id" a)
                                     | Text _ => ""
                                     end) l
  | _ => []
  end = [""; "comment-1"; "comment-2"; "comment-3"].
Proof. vm_compute. reflexivity. Qed.

(** ** The model at work: runs of the small site *)

Lemma blogIndex_once_per_directory_witness :
  let st' := snd (processDirectory (demo_env 2) in_order "pages"
                    [File "index.md" (dated 20230105 "Home"); Dir "blog" three_posts]
                    initial) in
  blogIndex_calls (trace st') =
    (blogIndex_calls (trace initial) +
     S (count_dirs [File "index.md" (dated 20230105 "Home"); Dir "blog" three_posts]))%nat /\
  exists walk agg,
    trace st' =
      trace initial ++ walk ++ EvBlogIndex :: agg ++ [EvWrite CnameOut "public/CNAME" cname] /\
    blogIndex_calls walk =
      count_dirs [File "index.md" (dated 20230105 "Home"); Dir "blog" three_posts] /\
    Forall agg_event agg.
Proof.
  intros st'.
  apply (blogIndex_once_per_directory (demo_env 2) in_order "pages"
           [File "index.md" (dated 20230105 "Home"); Dir "blog" three_posts] initial st').
  vm_compute. reflexivity.
Defined.

(** C2 as stated fails as soon as [pages/] has a subdirectory: the walk of
    [pages/blog] ends with a call of [blogIndex], the walk of [pages] with
    another one, and [public/CNAME] is written after each. *)
Lemma blogIndex_entered_twice :
  let r := build (demo_env 2) in_order
             [File "index.md" (dated 20230105 "Home"); Dir "blog" three_posts] initial in
  fst r = Ok tt /\
  blogIndex_calls (trace (snd r)) = 2%nat /\
  length (filter (fun w => w = (CnameOut, "public/CNAME")) (written (trace (snd r)))) = 2%nat.
Proof. vm_compute. repeat split. Qed.

(** C3 as stated fails: with the dates [20230101, 20230101, 20230102] listed
    in that order, the posts of the same day come out in the order in which
    their transforms completed; completion in reverse of the listing puts
    the second-discovered post before the first-discovered one. *)
Lemma equal_dates_follow_completion_order :
  map fst (post_writes (trace (snd
    (build (demo_env 10) in_order [Dir "blog" three_posts] initial)))) =
    ["public/blog/third.html"; "public/blog/first.html"; "public/blog/second.html"] /\
  map fst (post_writes (trace (snd
    (build (demo_env 10) reversed [Dir "blog" three_posts] initial)))) =
    ["public/blog/third.html"; "public/blog/second.html"; "public/blog/first.html"].
Proof. vm_compute. split; reflexivity. Qed.

Lemma sort_keeps_completion_order_witness :
  let pending := dispatched "pages/blog" three_posts in
  let collected := blogPages initial ++ map (collected_by (demo_env 10)) (completion reversed pending) in
  await_all (demo_env 10) reversed pending initial = (Ok tt, mkState collected (trace initial)) /\
  sort_pages collected ≡ₚ collected /\
  StronglySorted not_older (sort_pages collected) /\
  forall d,
    filter (fun p => dateNum p = Some d) (sort_pages collected) =
    filter (fun p => dateNum p = Some d) collected.
Proof.
  intros pending.
  apply (sort_keeps_completion_order (demo_env 10) reversed (collected_by (demo_env 10))
           pending initial).
  - intros t s Ht. vm_compute in Ht.
    repeat (apply elem_of_cons in Ht as [->|Ht]; [reflexivity|]).
    now apply not_elem_of_nil in Ht.
  - constructor.
  - intros t Ht. vm_compute in Ht.
    repeat (apply elem_of_cons in Ht as [->|Ht]; [vm_compute; eauto|]).
    now apply not_elem_of_nil in Ht.
Defined.


Example five_posts_controls :
  map (fun w => match snd w with
                | Html _ html =>
                    (fst w,
                     map (fun n => match n with
                                   | Elem "span" [] [Elem "a" (("href", h) :: _) [Text t]] => (t, h)
                                   | _ => ("", "")
                                   end)
                       (drop 2 (default [] (contentOf [html]))))
                | Raw _ => (fst w, [])
                end)
    (post_writes (trace (snd (blogIndex (demo_env 2) five_posts)))) =
  [("public/blog/e.html", [("Older", "/blog/d")]);
   ("public/blog/d.html", [("Newer", "/blog/e"); ("Older", "/blog/c")]);
   ("public/blog/c.html", [("Newer", "/blog/d"); ("Older", "/blog/b")]);
   ("public/blog/b.html", [("Newer", "/blog/c"); ("Older", "/blog/a")]);
   ("public/blog/a.html", [("Newer", "/blog/b")])].
Proof. vm_compute. reflexivity. Qed.


(** The earlier variant of the transform (the unnamed source file, lines
    146-148) keeps the zero: it takes the day as [slice(6)] without the
    replacement. *)
Example date_of_earlier_variant :
  dateString_unstripped (JNum 20230105) = "January 05, 2023".
Proof. reflexivity. Qed.



(** ** Strings: occurrences, [split] and [join] *)

Lemma index0_unfold pat s :
  index 0 pat s =
  match s with
  | EmptyString => match pat with EmptyString => Some O | String _ _ => None end
  | String c s' =>
      if String.prefix pat s then Some O
      else match index 0 pat s' with Some n => Some (S n) | None => None end
  end.
Proof. destruct s; reflexivity. Qed.

Lemma string_app_cons c (s t : string) : String c s +:+ t = String c (s +:+ t).
Proof. reflexivity. Qed.

Lemma string_app_nil_l (s : string) : "" +:+ s = s.
Proof. reflexivity. Qed.

Lemma string_length_app (s t : string) :
  String.length (s +:+ t) = (String.length s + String.length t)%nat.
Proof.
  induction s as [|c s IH]; [reflexivity|].
  rewrite string_app_cons. cbn [String.length]. now rewrite IH.
Qed.

Lemma string_app_nil_r (s : string) : s +:+ "" = s.
Proof.
  induction s as [|c s IH]; [reflexivity|]. rewrite string_app_cons. now rewrite IH.
Qed.

Lemma string_app_assoc (s t u : string) : (s +:+ t) +:+ u = s +:+ (t +:+ u).
Proof.
  induction s as [|c s IH]; [reflexivity|].
  rewrite !string_app_cons. f_equal. exact IH.
Qed.

Lemma substring_all (s : string) : substring 0 (String.length s) s = s.
Proof. induction s as [|c s IH]; cbn; [reflexivity|]. now rewrite IH. Qed.

Lemma substring_app_l (a b : string) : substring 0 (String.length a) (a +:+ b) = a.
Proof.
  induction a as [|c a IH].
  - destruct b; reflexivity.
  - rewrite string_app_cons. cbn. f_equal. exact IH.
Qed.

Lemma substring_app_r (a b : string) :
  substring (String.length a) (String.length b) (a +:+ b) = b.
Proof.
  induction a as [|c a IH]; [apply substring_all|].
  rewrite string_app_cons. cbn. exact IH.
Qed.

Lemma prefix_app (a b : string) : String.prefix a (a +:+ b) = true.
Proof. apply prefix_correct, substring_app_l. Qed.

(** What [replace_first] and [split] cut off behind an occurrence. *)
Lemma rest_after (a pat b : string) :
  substring (String.length a + String.length pat)
    (String.length (a +:+ pat +:+ b) - (String.length a + String.length pat))
    (a +:+ pat +:+ b) = b.
Proof.
  rewrite <- string_length_app, <- string_app_assoc.
  rewrite (string_length_app (a +:+ pat) b).
  replace (String.length (a +:+ pat) + String.length b - String.length (a +:+ pat))%nat
    with (String.length b) by lia.
  apply substring_app_r.
Qed.

(** The first occurrence of a one-character separator. *)
Lemma index_lacks_None c (a : string) :
  lacks c a = true -> index 0 (String c "") a = None.
Proof.
  induction a as [|x a IH]; intros H; [reflexivity|].
  cbn [lacks] in H. apply andb_true_iff in H as [Hx Ha].
  rewrite index0_unfold. cbn [String.prefix].
  destruct (ascii_dec c x) as [->|Hne].
  - now rewrite Ascii.eqb_refl in Hx.
  - now rewrite (IH Ha).
Qed.

Lemma index_lacks_Some c (a b : string) :
  lacks c a = true -> index 0 (String c "") (a +:+ String c b) = Some (String.length a).
Proof.
  induction a as [|x a IH]; intros H.
  - rewrite string_app_nil_l, index0_unfold. cbn [String.prefix].
    destruct (ascii_dec c c) as [_|Hne]; [|congruence]. now destruct b.
  - cbn [lacks] in H. apply andb_true_iff in H as [Hx Ha].
    rewrite string_app_cons, index0_unfold. cbn [String.prefix].
    destruct (ascii_dec c x) as [->|Hne].
    + now rewrite Ascii.eqb_refl in Hx.
    + now rewrite (IH Ha).
Qed.

Lemma lacks_app c (a b : string) : lacks c (a +:+ b) = lacks c a && lacks c b.
Proof.
  induction a as [|x a IH]; [reflexivity|].
  rewrite string_app_cons. cbn [lacks]. now rewrite IH, andb_assoc.
Qed.

Lemma join_cons sep p q rest :
  join sep (p :: q :: rest) = p +:+ sep +:+ join sep (q :: rest).
Proof. reflexivity. Qed.

(** [split] undoes [join] on components that hold no separator. *)
Lemma split_fuel_join c (l : list string) :
  l <> [] ->
  Forall (fun p => lacks c p = true) l ->
  forall fuel, (String.length (join (String c "") l) <= fuel)%nat ->
  split_fuel fuel (String c "") (join (String c "") l) = l.
Proof.
  induction l as [|p l IH]; [congruence|]. intros _ Hl fuel Hfuel.
  apply Forall_cons in Hl as [Hp Hl].
  destruct l as [|q l].
  - cbn [join] in *. destruct fuel as [|fuel]; [reflexivity|].
    cbn [split_fuel]. now rewrite index_lacks_None.
  - rewrite join_cons in *. set (r := join (String c "") (q :: l)) in *.
    rewrite string_app_cons, string_app_nil_l in *.
    rewrite string_length_app in Hfuel. cbn [String.length] in Hfuel.
    destruct fuel as [|fuel]; [lia|].
    cbn [split_fuel]. rewrite index_lacks_Some by assumption.
    rewrite substring_app_l.
    pose proof (rest_after p (String c "") r) as Hr.
    rewrite string_app_cons, string_app_nil_l in Hr. rewrite Hr.
    f_equal. apply IH; [congruence|assumption|lia].
Qed.

Lemma split_join c (l : list string) :
  l <> [] -> Forall (fun p => lacks c p = true) l ->
  split (String c "") (join (String c "") l) = l.
Proof. intros Hne Hl. unfold split. now apply split_fuel_join. Qed.

(** ** The paths of a page (cli.js, lines 109-111 and 171) *)

Lemma index_prefix (p r : string) : p <> "" -> index 0 p (p +:+ r) = Some O.
Proof.
  destruct p as [|c p]; [congruence|]. intros _.
  rewrite string_app_cons, index0_unfold, <- string_app_cons, prefix_app. reflexivity.
Qed.

Lemma index_md (a b : string) :
  includes a ".md" = false ->
  index 0 ".md" (a +:+ ".md" +:+ b) = Some (String.length a).
Proof.
  unfold includes. induction a as [|c a IH]; intros H.
  - rewrite string_app_nil_l. now apply index_prefix.
  - rewrite index0_unfold in H. rewrite string_app_cons, index0_unfold.
    destruct (String.prefix ".md" (String c a)) eqn:Hpre; [discriminate|].
    assert (String.prefix ".md" (String c (a +:+ ".md" +:+ b)) = false) as ->.
    { clear IH H.
      destruct a as [|c1 [|c2 a]]; rewrite ?string_app_cons, ?string_app_nil_l in *;
        cbn [String.prefix] in *;
        repeat match goal with
               | |- context [ascii_dec ?x ?y] => destruct (ascii_dec x y)
               end; try congruence.
      now destruct a. }
    destruct (index 0 ".md" a); [discriminate|]. now rewrite IH.
Qed.

Lemma replace_pages (r : string) : replace_first "pages/" "" ("pages/" +:+ r) = r.
Proof.
  unfold replace_first.
  assert (index 0 "pages/" ("pages/" +:+ r) = Some O) as ->.
  { now apply index_prefix. }
  exact (rest_after "" "pages/" r).
Qed.

Lemma pagePathParts_join (l : list string) :
  l <> [] -> Forall (fun p => lacks "/" p = true) l ->
  pagePathParts ("pages/" +:+ join "/" l) = l.
Proof. intros Hne Hl. unfold pagePathParts. rewrite replace_pages. now apply split_join. Qed.

Lemma split_md (a b : string) :
  includes a ".md" = false -> hd "" (split ".md" (a +:+ ".md" +:+ b)) = a.
Proof.
  intros H. unfold split.
  destruct (String.length (a +:+ ".md" +:+ b)) as [|fuel] eqn:E.
  { rewrite string_length_app in E.
    change (".md" +:+ b) with (String "." ("md" +:+ b)) in E. cbn [String.length] in E. lia. }
  cbn [split_fuel].
  rewrite index_md by assumption. cbn [hd]. apply substring_app_l.
Qed.

Lemma join_blog (dirs : list string) :
  Forall (fun p => lacks "/" p = true) dirs ->
  join "/" dirs = "blog" <-> dirs = ["blog"].
Proof.
  intros Hl. split; [|now intros ->].
  destruct dirs as [|d [|q l]]; intros H.
  - discriminate.
  - cbn in H. now subst.
  - rewrite join_cons in H. apply (f_equal (lacks "/")) in H.
    rewrite lacks_app, string_app_cons in H.
    apply Forall_cons in Hl as [Hd _]. rewrite Hd in H. discriminate H.
Qed.

Section PagePath.
Variables (dirs : list string) (a b : string).
Hypothesis Hdirs : Forall (fun d => lacks "/" d = true) dirs.
Hypothesis Ha : lacks "/" a = true.
Hypothesis Hb : lacks "/" b = true.
Hypothesis Hmd : includes a ".md" = false.

Lemma pagePathParts_page :
  pagePathParts ("pages/" +:+ join "/" (dirs ++ [a +:+ ".md" +:+ b])) =
  dirs ++ [a +:+ ".md" +:+ b].
Proof.
  apply pagePathParts_join; [now destruct dirs|].
  apply Forall_app. split; [assumption|]. apply Forall_singleton.
  rewrite !lacks_app, Ha, Hb. reflexivity.
Qed.

Lemma pageName_page :
  pageName ("pages/" +:+ join "/" (dirs ++ [a +:+ ".md" +:+ b])) = a.
Proof. unfold pageName. rewrite pagePathParts_page, last_last. now apply split_md. Qed.

Lemma targetPath_page :
  targetPath ("pages/" +:+ join "/" (dirs ++ [a +:+ ".md" +:+ b])) = join "/" dirs.
Proof. unfold targetPath. now rewrite pagePathParts_page, removelast_last. Qed.

Lemma outputPath_page :
  outputPath ("pages/" +:+ join "/" (dirs ++ [a +:+ ".md" +:+ b])) =
  "public/" +:+ join "/" dirs +:+ "/" +:+ a +:+ ".html".
Proof. unfold outputPath. now rewrite pageName_page, targetPath_page. Qed.

End PagePath.

(** Where a page goes.  The file of a page lies below [pages/] in the
    directories [dirs]; its name reads [a.md] followed by [b] (nothing, for
    an ordinary page), and [a] holds no [.md] itself.  Then the page is
    named [a], its target directory is [dirs] joined by slashes, and it is
    written to [public/<dirs>/<a>.html]: what follows the first [.md] of the
    file name is dropped.  For a page directly in [pages/] the directory part
    is empty and the path reads [public//<a>.html]. *)
Theorem page_paths (dirs : list string) (a b : string) :
  Forall (fun d => lacks "/" d = true) dirs ->
  lacks "/" a = true -> lacks "/" b = true ->
  includes a ".md" = false ->
  pageName ("pages/" +:+ join "/" (dirs ++ [a +:+ ".md" +:+ b])) = a /\
  targetPath ("pages/" +:+ join "/" (dirs ++ [a +:+ ".md" +:+ b])) = join "/" dirs /\
  outputPath ("pages/" +:+ join "/" (dirs ++ [a +:+ ".md" +:+ b])) =
    "public/" +:+ join "/" dirs +:+ "/" +:+ a +:+ ".html" /\
  (dirs = [] ->
   outputPath ("pages/" +:+ a +:+ ".md" +:+ b) = "public//" +:+ a +:+ ".html").
Proof.
  intros Hd Ha Hb Hmd.
  split; [now apply pageName_page|]. split; [now apply targetPath_page|].
  split; [now apply outputPath_page|].
  intros ->. now apply (outputPath_page [] a b).
Qed.

Lemma page_paths_witness :
  pageName "pages/blog/2024/first.md" = "first" /\
  targetPath "pages/blog/2024/first.md" = "blog/2024" /\
  outputPath "pages/blog/2024/first.md" = "public/blog/2024/first.html".
Proof.
  destruct (page_paths ["blog"; "2024"] "first" "") as (Hn & Ht & Ho & _).
  - repeat constructor.
  - reflexivity.
  - reflexivity.
  - reflexivity.
  - repeat split; assumption.
Defined.

(** ** What a page transform leaves behind (cli.js, lines 119-171) *)

Lemma processPage_effect E pagePath file st st' :
  attr (attributes file) "publish" <> JStr "no" ->
  processPage E pagePath file st = (Ok tt, st') ->
  exists logs,
    (logs = [] \/
     logs = [EvLog (missing_content_warning (templatePath (attributes file)))]) /\
    if String.eqb (targetPath pagePath) "blog"
    then trace st' = trace st ++ logs /\
         exists doc,
           blogPages st' =
           blogPages st ++ [mkPage (attributes file) doc (pageName pagePath)]
    else blogPages st' = blogPages st /\
         exists data,
           trace st' = trace st ++ logs ++ [EvWrite PageOut (outputPath pagePath) data].
Proof.
  intros Hpub H. unfold processPage in H.
  rewrite bool_decide_eq_false_2 in H by assumption.
  apply bind_Ok in H as (doc & s1 & Hdoc & H).
  unfold fromFile in Hdoc. apply lift_Ok in Hdoc as [_ ->].
  apply bind_Ok in H as (head & s1 & Hhead & H).
  unfold readComponentHead in Hhead. apply lift_Ok in Hhead as [_ ->].
  apply bind_Ok in H as (doc1 & s1 & Hdoc1 & H). apply lift_Ok in Hdoc1 as [_ ->].
  apply bind_Ok in H as (doc2 & s1 & Hdoc2 & H).
  assert (exists logs,
    (logs = [] \/
     logs = [EvLog (missing_content_warning (templatePath (attributes file)))]) /\
    s1 = mkState (blogPages st) (trace st ++ logs)) as (logs & Hlogs & ->).
  { destruct (setContent _ doc1).
    - injection Hdoc2 as _ <-. exists []. rewrite app_nil_r. split; [now left|].
      now destruct st.
    - apply bind_Ok in Hdoc2 as ([] & s2 & Hlog & Hret).
      injection Hlog as <-. injection Hret as _ <-.
      eexists. split; [now right|]. reflexivity. }
  apply bind_Ok in H as (doc3 & s1 & Hdoc3 & H).
  assert (s1 = mkState (blogPages st) (trace st ++ logs)) as ->.
  { destruct (truthy _).
    - now apply lift_Ok in Hdoc3 as [_ ->].
    - now injection Hdoc3 as _ <-. }
  exists logs. split; [assumption|].
  destruct (find_forest (byTag "html") (nodes doc3)).
  2:{ apply bind_Ok in H as ([] & s2 & _ & H). discriminate. }
  destruct (String.eqb (targetPath pagePath) "blog").
  - apply bind_Ok in H as (pages & s2 & Hget & H).
    injection Hget as <- <-. injection H as <-. cbn [blogPages trace].
    split; [reflexivity|]. eauto.
  - apply bind_Ok in H as (name & s2 & Hname & H). apply lift_Ok in Hname as [_ ->].
    apply bind_Ok in H as (html & s2 & Hhtml & H). apply lift_Ok in Hhtml as [_ ->].
    injection H as <-. cbn [blogPages trace].
    split; [reflexivity|]. eexists. now rewrite <- app_assoc.
Qed.

(** A published page whose transform returns is either collected or
    written, never both, and which of the two is decided by where its file
    lies: a page directly in [pages/blog] is pushed on [blogPages] under its
    name, with no file written; every other page, those in directories below
    [pages/blog] too, is written to [public/<dirs>/<name>.html] and leaves
    [blogPages] alone.  Besides that the transform logs at most the warning
    about the missing [page-content] element. *)
Theorem page_collected_or_written E (dirs : list string) (a b : string) file st st' :
  Forall (fun d => lacks "/" d = true) dirs ->
  lacks "/" a = true -> lacks "/" b = true ->
  includes a ".md" = false ->
  attr (attributes file) "publish" <> JStr "no" ->
  processPage E ("pages/" +:+ join "/" (dirs ++ [a +:+ ".md" +:+ b])) file st = (Ok tt, st') ->
  exists logs,
    (logs = [] \/
     logs = [EvLog (missing_content_warning (templatePath (attributes file)))]) /\
    if bool_decide (dirs = ["blog"])
    then trace st' = trace st ++ logs /\
         exists doc, blogPages st' = blogPages st ++ [mkPage (attributes file) doc a]
    else blogPages st' = blogPages st /\
         exists data,
           trace st' =
           trace st ++ logs ++
           [EvWrite PageOut ("public/" +:+ join "/" dirs +:+ "/" +:+ a +:+ ".html") data].
Proof.
  intros Hd Ha Hb Hmd Hpub H.
  apply processPage_effect in H as (logs & Hlogs & H); [|assumption].
  exists logs. split; [assumption|].
  rewrite targetPath_page, pageName_page, outputPath_page in H by assumption.
  destruct (String.eqb_spec (join "/" dirs) "blog") as [Heq|Hne].
  - apply join_blog in Heq; [|assumption]. now rewrite bool_decide_eq_true_2.
  - rewrite bool_decide_eq_false_2; [assumption|]. now intros ->.
Qed.

Lemma page_collected_or_written_witness :
  exists logs,
    (logs = [] \/
     logs = [EvLog (missing_content_warning (templatePath (attributes (dated 20230105 "One"))))]) /\
    blogPages (snd (processPage (demo_env 2) "pages/blog/2023/one.md"
                      (dated 20230105 "One") initial)) = [] /\
    exists data,
      trace (snd (processPage (demo_env 2) "pages/blog/2023/one.md"
                    (dated 20230105 "One") initial)) =
      [] ++ logs ++ [EvWrite PageOut "public/blog/2023/one.html" data].
Proof.
  apply (page_collected_or_written (demo_env 2) ["blog"; "2023"] "one" ""
           (dated 20230105 "One") initial).
  - repeat constructor.
  - reflexivity.
  - reflexivity.
  - reflexivity.
  - intros H. vm_compute in H. discriminate.
  - vm_compute. reflexivity.
Defined.

(** ** The collection is used up, and a build starts afresh *)

Lemma uniform_ext {A} (m m' : M A) :
  (forall st, m st = m' st) -> uniform m' -> uniform m.
Proof.
  intros Heq Hm pages. destruct (Hm pages) as (o & pages' & evs & H).
  exists o, pages', evs. intros tr. now rewrite Heq.
Qed.

Lemma uniform_ret {A} (a : A) : uniform (ret a).
Proof. intros pages. exists (Ok a), pages, []. intros tr. now rewrite app_nil_r. Qed.

Lemma uniform_lift {A} (o : outcome A) : uniform (lift o).
Proof. intros pages. exists o, pages, []. intros tr. now rewrite app_nil_r. Qed.

Lemma uniform_exit {A} c : uniform (@process_exit A c).
Proof. intros pages. exists (Exit c), pages, []. intros tr. now rewrite app_nil_r. Qed.

Lemma uniform_diverge {A} : uniform (fun st => (@Diverge A, st)).
Proof. intros pages. exists Diverge, pages, []. intros tr. now rewrite app_nil_r. Qed.

Lemma uniform_emit e : uniform (emit e).
Proof. intros pages. exists (Ok tt), pages, [e]. reflexivity. Qed.

Lemma uniform_get : uniform get_blogPages.
Proof. intros pages. exists (Ok pages), pages, []. intros tr. now rewrite app_nil_r. Qed.

Lemma uniform_set l : uniform (set_blogPages l).
Proof. intros pages. exists (Ok tt), l, []. intros tr. cbn. now rewrite app_nil_r. Qed.

Lemma uniform_bind {A B} (m : M A) (k : A -> M B) :
  uniform m -> (forall a, uniform (k a)) -> uniform (bind m k).
Proof.
  intros Hm Hk pages. destruct (Hm pages) as (o & pages1 & evs1 & H1).
  destruct o as [a|e|c|].
  - destruct (Hk a pages1) as (o2 & pages2 & evs2 & H2).
    exists o2, pages2, (evs1 ++ evs2). intros tr.
    unfold bind. now rewrite H1, H2, app_assoc.
  - exists (Throw e), pages1, evs1. intros tr. unfold bind. now rewrite H1.
  - exists (Exit c), pages1, evs1. intros tr. unfold bind. now rewrite H1.
  - exists Diverge, pages1, evs1. intros tr. unfold bind. now rewrite H1.
Qed.

Ltac uniform_atom :=
  first
    [ apply uniform_ret | apply uniform_lift | apply uniform_exit
    | apply uniform_emit | apply uniform_get | apply uniform_set
    | apply uniform_diverge ].

Ltac uniform_binds := repeat (apply uniform_bind; [uniform_atom | intros ?]).

Lemma processPage_uniform E pagePath file : uniform (processPage E pagePath file).
Proof.
  unfold processPage, fromFile, readComponentHead, console_log, writeFile.
  destruct (bool_decide _); [apply uniform_ret|].
  uniform_binds. apply uniform_bind.
  { destruct (setContent _ _); uniform_binds; uniform_atom. }
  intros d2. apply uniform_bind.
  { destruct (truthy _); uniform_atom. }
  intros d3. destruct (find_forest _ _); [|uniform_binds; uniform_atom].
  destruct (String.eqb _ _); uniform_binds; uniform_atom.
Qed.

Lemma run_tasks_uniform E ts : forall rejected, uniform (run_tasks E ts rejected).
Proof.
  induction ts as [|t ts IH]; intros rejected; [apply uniform_ret|].
  intros pages.
  destruct (processPage_uniform E (fst t) (snd t) pages) as (o & pages1 & evs1 & H1).
  destruct o as [[]|e|c|].
  - destruct (IH rejected pages1) as (o2 & pages2 & evs2 & H2).
    exists o2, pages2, (evs1 ++ evs2). intros tr.
    cbn [run_tasks]. now rewrite H1, H2, app_assoc.
  - destruct (IH (Some (default e rejected)) pages1) as (o2 & pages2 & evs2 & H2).
    exists o2, pages2, (evs1 ++ evs2). intros tr.
    cbn [run_tasks]. now rewrite H1, H2, app_assoc.
  - exists (Exit c), pages1, evs1. intros tr. cbn [run_tasks]. now rewrite H1.
  - exists Diverge, pages1, evs1. intros tr. cbn [run_tasks]. now rewrite H1.
Qed.

Lemma await_all_uniform E S pending : uniform (await_all E S pending).
Proof.
  unfold await_all. apply uniform_bind; [apply run_tasks_uniform|].
  intros [e|]; uniform_atom.
Qed.

Lemma awaiting_uniform E S pending (m : M unit) :
  uniform m -> uniform (awaiting E S pending m).
Proof.
  intros Hm pages. destruct (Hm pages) as (o & pages1 & evs1 & H1).
  destruct o as [[]|e|c|].
  - exists (Ok tt), pages1, evs1. intros tr. unfold awaiting. now rewrite H1.
  - assert (uniform (run_tasks E (completion S pending) None ;; lift (@Throw unit e))) as Hr.
    { apply uniform_bind; [apply run_tasks_uniform | intros ?; apply uniform_lift]. }
    destruct (Hr pages1) as (o2 & pages2 & evs2 & H2).
    exists o2, pages2, (evs1 ++ evs2). intros tr.
    unfold awaiting. now rewrite H1, H2, app_assoc.
  - exists (Exit c), pages1, evs1. intros tr. unfold awaiting. now rewrite H1.
  - exists Diverge, pages1, evs1. intros tr. unfold awaiting. now rewrite H1.
Qed.

Lemma batch_loop_uniform originalBlogPages total batch :
  forall agg idx, uniform (batch_loop originalBlogPages total batch agg idx).
Proof.
  induction batch as [|p batch IH]; intros agg idx; [apply uniform_ret|].
  cbn [batch_loop]. unfold writeFile. uniform_binds. apply IH.
Qed.

Lemma index_loop_uniform E originalBlogPages total tip fuel :
  forall pageCount idx, uniform (index_loop E originalBlogPages total tip fuel pageCount idx).
Proof.
  induction fuel as [|fuel IH]; intros pageCount idx.
  - cbn [index_loop]. apply uniform_bind; [apply uniform_get|].
    intros [|p pages]; uniform_atom.
  - cbn [index_loop]. apply uniform_bind; [apply uniform_get|].
    intros [|p pages]; [apply uniform_ret|].
    unfold fromFile, readComponentHead, writeFile.
    uniform_binds. apply uniform_bind; [apply batch_loop_uniform | intros r].
    uniform_binds. apply IH.
Qed.

Lemma blogIndex_uniform E : uniform (blogIndex E).
Proof.
  unfold blogIndex. uniform_binds. apply index_loop_uniform.
Qed.

Section Uniform.
Variables (E : env) (S : scheduler).

Lemma walk_entries_uniform contents :
  Forall (fun e => forall directoryPath pending,
            uniform (walk_entry E S directoryPath e pending)) contents ->
  forall directoryPath pending, uniform (walk_entries E S directoryPath contents pending).
Proof.
  induction 1 as [|c l Hc _ IH]; intros directoryPath pending; [apply uniform_ret|].
  cbn [walk_entries]. apply uniform_bind; [apply Hc | intros p; apply IH].
Qed.

Lemma processDirectory_uniform contents :
  Forall (fun e => forall directoryPath pending,
            uniform (walk_entry E S directoryPath e pending)) contents ->
  forall directoryPath, uniform (processDirectory E S directoryPath contents).
Proof.
  intros Hall directoryPath. unfold processDirectory, writeFile.
  apply uniform_bind; [now apply walk_entries_uniform | intros pending].
  apply uniform_bind; [apply await_all_uniform | intros _].
  apply uniform_bind; [apply blogIndex_uniform | intros _]. apply uniform_emit.
Qed.

Lemma walk_entry_uniform e :
  forall directoryPath pending, uniform (walk_entry E S directoryPath e pending).
Proof.
  induction e as [name data|name contents IH] using entry_ind';
    intros directoryPath pending.
  - cbn [walk_entry]. destruct (negb _); apply uniform_ret.
  - eapply uniform_ext; [intros st; apply walk_entry_Dir|].
    apply uniform_bind; [|intros _; apply uniform_ret].
    apply awaiting_uniform. now apply processDirectory_uniform.
Qed.

End Uniform.

(** A successful aggregation uses the collection up: [blogPages] is empty
    when [blogIndex] returns, and calling it again, as the walk does at the
    end of every directory, writes nothing. *)
Theorem blogIndex_drains E st st' :
  (0 < postsPerPage E)%nat ->
  blogIndex E st = (Ok tt, st') ->
  blogPages st' = [] /\
  blogIndex E st' = (Ok tt, mkState [] (trace st' ++ [EvBlogIndex])).
Proof.
  intros Hp H. apply blogIndex_Ok in H as (Hnil & _); [|assumption].
  split; [assumption|]. rewrite blogIndex_unfold, Hnil. reflexivity.
Qed.

Lemma blogIndex_drains_witness :
  blogPages (snd (blogIndex (demo_env 2) five_posts)) = [] /\
  blogIndex (demo_env 2) (snd (blogIndex (demo_env 2) five_posts)) =
  (Ok tt, mkState [] (trace (snd (blogIndex (demo_env 2) five_posts)) ++
                      [EvBlogIndex])).
Proof.
  apply (blogIndex_drains (demo_env 2) five_posts).
  - cbn. lia.
  - vm_compute. reflexivity.
Defined.

(** [build] resets the collection before it walks (line 49), so nothing of
    an earlier run gets into it: the outcome of a build, the collection it
    leaves and the events it adds do not depend on the state it starts from,
    be that the state a failed build has left behind.  The development
    server rebuilds in the same process after every change. *)
Theorem build_starts_afresh E S pages :
  exists o final evs,
    forall st, build E S pages st = (o, mkState final (trace st ++ evs)).
Proof.
  assert (uniform (processDirectory E S "pages" pages)) as H.
  { apply processDirectory_uniform. apply Forall_forall. intros e _.
    apply walk_entry_uniform. }
  destruct (H []) as (o & final & evs & Hrun).
  exists o, final, evs. intros [pages0 tr]. unfold build, bind. cbn. apply Hrun.
Qed.

(** ** Hidden files (cli.js, lines 80-82) *)

Lemma prune_entry_Dir name contents :
  prune_entry (Dir name contents) = Some (Dir name (prune contents)).
Proof. reflexivity. Qed.

Section Hidden.
Variables (E : env) (S : scheduler).

Lemma walk_entries_prune contents :
  Forall (skips_hidden E S) contents ->
  forall directoryPath pending st,
  walk_entries E S directoryPath contents pending st =
  walk_entries E S directoryPath (prune contents) pending st.
Proof.
  induction 1 as [|c l Hc _ IH]; intros directoryPath pending st; [reflexivity|].
  cbn [walk_entries prune]. unfold bind at 1. rewrite Hc.
  destruct (prune_entry c) as [c'|].
  - cbn [walk_entries]. unfold bind.
    destruct (walk_entry E S directoryPath c' pending st) as [[p| | |] s1];
      try reflexivity. apply IH.
  - apply IH.
Qed.

Lemma processDirectory_prune contents :
  Forall (skips_hidden E S) contents ->
  forall directoryPath st,
  processDirectory E S directoryPath contents st =
  processDirectory E S directoryPath (prune contents) st.
Proof.
  intros Hall directoryPath st. unfold processDirectory, bind.
  now rewrite (walk_entries_prune _ Hall).
Qed.

Lemma walk_entry_prune e : skips_hidden E S e.
Proof.
  induction e as [name data|name contents IH] using entry_ind';
    intros directoryPath pending st.
  - cbn [walk_entry prune_entry].
    destruct (startsWith name ".") eqn:Hdot; cbn [negb]; [reflexivity|].
    cbn [walk_entry]. now rewrite Hdot.
  - rewrite prune_entry_Dir, !walk_entry_Dir. unfold bind, awaiting.
    now rewrite (processDirectory_prune _ IH).
Qed.

End Hidden.

(** A file whose name starts with a dot has no effect on the walk, in
    whatever directory it lies: [processDirectory] does to the state what it
    does for the tree without those files.  Only files are tested: a
    directory is walked whatever its name. *)
Theorem hidden_files_are_skipped E S directoryPath contents st :
  processDirectory E S directoryPath contents st =
  processDirectory E S directoryPath (prune contents) st.
Proof.
  apply processDirectory_prune. apply Forall_forall. intros e _.
  apply walk_entry_prune.
Qed.

(** ** Dates that are no dates (cli.js, lines 132-135) *)

Lemma parseInt_digits2 m : 0 <= m < 100 -> parseInt (digits2 m) = Some m.
Proof.
  intros Hm.
  assert (0 <= m mod 10 < 10) by (apply Z.mod_pos_bound; lia).
  assert (0 <= m / 10 < 10).
  { split; [apply Z.div_pos | apply Z.div_lt_upper_bound]; lia. }
  pose proof (Z.div_mod m 10 ltac:(lia)) as Em.
  unfold parseInt, digits2. cbn [parse_digits].
  rewrite !digit_val_char by lia. cbn [default from_option id].
  f_equal. lia.
Qed.

Lemma strip_digits2 d : 0 <= d < 100 -> strip_leading_zero (digits2 d) = Z_to_string d.
Proof.
  intros Hd.
  assert (0 <= d mod 10 < 10) by (apply Z.mod_pos_bound; lia).
  assert (0 <= d / 10 < 10).
  { split; [apply Z.div_pos | apply Z.div_lt_upper_bound]; lia. }
  pose proof (Z.div_mod d 10 ltac:(lia)) as Ed.
  unfold strip_leading_zero, digits2. rewrite digit_char_zero by lia.
  destruct (d / 10 =? 0) eqn:E.
  - apply Z.eqb_eq in E. rewrite Z_to_string_digit by lia.
    replace (d mod 10) with d by lia. reflexivity.
  - apply Z.eqb_neq in E.
    replace (Z_to_string d) with (Z_to_string (10 * (d / 10) + d mod 10))
      by (f_equal; lia).
    rewrite Z_to_string_snoc, Z_to_string_digit by lia. reflexivity.
Qed.

Lemma dateString_digits y m d :
  1000 <= y <= 9999 -> 0 <= m < 100 -> 0 <= d < 100 ->
  dateString (JNum (y * 10000 + m * 100 + d)) =
  toString (month_name (digits2 m)) +:+ " " +:+ Z_to_string d +:+ ", " +:+ Z_to_string y.
Proof.
  intros Hy Hm Hd. unfold dateString. cbn [toString].
  rewrite Z_to_string_date by lia.
  change (slice 4 6 (digits4 y +:+ digits2 m +:+ digits2 d)) with (digits2 m).
  change (slice_from 6 (digits4 y +:+ digits2 m +:+ digits2 d)) with (digits2 d).
  change (slice 0 4 (digits4 y +:+ digits2 m +:+ digits2 d)) with (digits4 y).
  now rewrite <- Z_to_string_4, strip_digits2 by lia.
Qed.

(** The date of the front matter is not checked against the calendar.  For
    an eight-digit number whose month digits are [00] or lie above [12], the
    lookup in the list of month names yields [undefined], and the date line
    of the page starts with that word; the day digits are printed as they
    are, without a leading zero, be they [00] or [99]. *)
Theorem dateString_without_month y m d :
  1000 <= y <= 9999 -> m = 0 \/ 13 <= m <= 99 -> 0 <= d <= 99 ->
  dateString (JNum (y * 10000 + m * 100 + d)) =
  "undefined " +:+ Z_to_string d +:+ ", " +:+ Z_to_string y.
Proof.
  intros Hy Hm Hd. rewrite dateString_digits by lia.
  assert (month_name (digits2 m) = JUndefined) as ->; [|reflexivity].
  unfold month_name. rewrite parseInt_digits2 by lia.
  destruct Hm as [->|Hm]; [reflexivity|].
  replace (1 <=? m) with true by (symmetry; apply Z.leb_le; lia).
  rewrite lookup_ge_None_2; [reflexivity|]. cbn [length calendar]. lia.
Qed.

Lemma dateString_without_month_witness :
  dateString (JNum (2023 * 10000 + 13 * 100 + 0)) = "undefined 0, 2023".
Proof. apply (dateString_without_month 2023 13 0); lia. Defined.

(** ** The development server (cli.js, lines 286-308) *)

Lemma includes_lacks c (s : string) : lacks c s = true -> includes s (String c "") = false.
Proof. intros H. unfold includes. now rewrite index_lacks_None. Qed.

Lemma index_app_Some (a b p : string) k :
  index 0 p b = Some k -> exists j, index 0 p (a +:+ b) = Some j.
Proof.
  intros H. induction a as [|c a [j IH]]; [eauto|].
  rewrite string_app_cons, index0_unfold.
  destruct (String.prefix p _); [eauto|]. rewrite IH. eauto.
Qed.

Lemma includes_app_r (a b p : string) :
  includes b p = true -> includes (a +:+ b) p = true.
Proof.
  unfold includes. destruct (index 0 p b) as [k|] eqn:H; [|discriminate].
  intros _. destruct (index_app_Some a b p k H) as [j ->]. reflexivity.
Qed.

Lemma string_app_inv_head (a x y : string) : a +:+ x = a +:+ y -> x = y.
Proof.
  induction a as [|c a IH]; [auto|]. rewrite !string_app_cons. intros [= H]. auto.
Qed.

Lemma filePath_dot url : includes (filePath url) "." = true.
Proof.
  unfold filePath. destruct (String.eqb url "/"); [reflexivity|].
  destruct (includes url ".") eqn:H; cbn [negb]; [assumption|].
  now apply includes_app_r.
Qed.

Lemma digit_char_lacks k : 0 <= k < 10 -> Ascii.eqb (digit_char k) "." = false.
Proof.
  intros Hk.
  assert (Hc : k = 0 \/ k = 1 \/ k = 2 \/ k = 3 \/ k = 4 \/ k = 5 \/ k = 6 \/ k = 7 \/
               k = 8 \/ k = 9) by lia.
  repeat destruct Hc as [-> | Hc]; try subst k; reflexivity.
Qed.

Lemma dec_lacks fuel : forall n, 0 <= n -> lacks "." (dec fuel n) = true.
Proof.
  induction fuel as [|fuel IH]; intros n Hn; [reflexivity|].
  rewrite dec_S. destruct (n <? 10) eqn:E.
  - apply Z.ltb_lt in E. cbn [lacks]. now rewrite digit_char_lacks by lia.
  - rewrite lacks_app, IH by (apply Z.div_pos; lia). cbn [lacks].
    rewrite digit_char_lacks; [reflexivity|]. apply Z.mod_pos_bound. lia.
Qed.

Lemma dec_nonempty fuel n : dec (S fuel) n <> "".
Proof.
  rewrite dec_S. destruct (n <? 10); [discriminate|]. now destruct (dec fuel (n / 10)).
Qed.

Lemma num_lacks k : lacks "." (num k) = true.
Proof.
  unfold num, Z_to_string.
  replace (Z.of_nat k <? 0) with false by (symmetry; apply Z.ltb_ge; lia).
  apply dec_lacks. lia.
Qed.

Lemma num_nonempty k : num k <> "".
Proof.
  unfold num, Z_to_string.
  replace (Z.of_nat k <? 0) with false by (symmetry; apply Z.ltb_ge; lia).
  apply dec_nonempty.
Qed.

Lemma filePath_plain (a s : string) :
  a <> "" -> includes ("/" +:+ a +:+ s) "." = false ->
  filePath ("/" +:+ a +:+ s) = "/" +:+ a +:+ s +:+ ".html".
Proof.
  intros Ha Hdot. unfold filePath. rewrite Hdot. cbn [negb].
  destruct (String.eqb_spec ("/" +:+ a +:+ s) "/") as [Heq|_].
  - destruct a; [congruence|discriminate].
  - now rewrite !string_app_assoc.
Qed.

(** The server never answers from a file that has no dot in its path: every
    request is resolved to a path with a dot in it, so what such a file
    holds, or whether it is there, changes no response.  The file
    [public/CNAME] that the build writes is one of them. *)
Theorem server_skips_dotless_files (files : gmap string string) (f data url : string) :
  includes f "." = false ->
  respond (<["public" +:+ f := data]> files) url = respond files url.
Proof.
  intros Hf. unfold respond. rewrite lookup_insert_ne; [reflexivity|].
  intros Heq. apply string_app_inv_head in Heq.
  pose proof (filePath_dot url) as Hdot. congruence.
Qed.

Lemma server_skips_dotless_files_witness :
  includes "/CNAME" "." = false /\
  respond (<["public" +:+ "/CNAME" := "www.jasonhallen.com"]> ∅) "/CNAME" =
  respond ∅ "/CNAME".
Proof.
  split; [reflexivity|].
  apply (server_skips_dotless_files ∅ "/CNAME" "www.jasonhallen.com" "/CNAME").
  reflexivity.
Defined.

(** The links of the pagination widget lead to the index pages: the server
    answers [/] from the file of the first index page and [/k] from the file
    of the [k]-th, the paths [blogIndex] writes them to. *)
Theorem pagination_links_resolve (files : gmap string string) (k : nat) :
  (2 <= k)%nat ->
  "public" +:+ filePath "/" = indexPath 1 /\
  "public" +:+ filePath ("/" +:+ num k) = indexPath k /\
  respond files ("/" +:+ num k) =
    match files !! indexPath k with
    | Some data => (200, data)
    | None => (404, "<h1>404: Page not found</h1>")
    end.
Proof.
  intros Hk.
  assert ("public" +:+ filePath ("/" +:+ num k) = indexPath k) as Hpath.
  { pose proof (filePath_plain (num k) "" (num_nonempty k)) as H.
    rewrite !string_app_nil_r in H. rewrite H.
    - unfold indexPath. replace (k =? 1)%nat with false by (symmetry; apply Nat.eqb_neq; lia).
      reflexivity.
    - apply (includes_lacks "."). rewrite (lacks_app "." "/" (num k)), num_lacks. reflexivity. }
  split; [reflexivity|]. split; [assumption|].
  unfold respond. now rewrite Hpath.
Qed.

Lemma pagination_links_resolve_witness :
  "public" +:+ filePath "/" = "public/index.html" /\
  "public" +:+ filePath "/3" = "public/3.html".
Proof.
  destruct (pagination_links_resolve ∅ 3) as (H1 & H2 & _); [lia|].
  split; assumption.
Defined.

Lemma includes_cons_ne c x (s : string) :
  x <> c -> includes (String x s) (String c "") = includes s (String c "").
Proof.
  intros Hne. unfold includes. rewrite index0_unfold. cbn [String.prefix].
  destruct (ascii_dec c x); [congruence|]. now destruct (index 0 (String c "") s).
Qed.

Lemma includes_app_lacks c (a b : string) :
  lacks c a = true -> includes (a +:+ b) (String c "") = includes b (String c "").
Proof.
  induction a as [|x a IH]; intros H; [reflexivity|].
  cbn [lacks] in H. apply andb_true_iff in H as [Hx Ha].
  rewrite string_app_cons, includes_cons_ne; [now apply IH|].
  intros ->. now rewrite Ascii.eqb_refl in Hx.
Qed.

(** The link to an individual post, [/blog/<name>], is answered from the
    file the post is written to exactly when the name of the page holds no
    dot; with a dot in the name the server looks for [public/blog/<name>]
    as it stands, which the build does not write. *)
Theorem post_link_resolves (p : page) :
  ("public" +:+ filePath (postUrl p) = postPath p <->
   includes (page_name p) "." = false) /\
  (includes (page_name p) "." = true ->
   "public" +:+ filePath (postUrl p) = "public/blog/" +:+ page_name p).
Proof.
  unfold postUrl, postPath.
  assert (includes ("/blog/" +:+ page_name p) "." = includes (page_name p) ".") as Hinc.
  { now apply (includes_app_lacks "." "/blog/"). }
  assert (includes (page_name p) "." = true ->
          "public" +:+ filePath ("/blog/" +:+ page_name p) = "public/blog/" +:+ page_name p)
    as Hdot.
  { intros H. unfold filePath. rewrite Hinc, H. reflexivity. }
  split; [|assumption]. split.
  - intros Heq. destruct (includes (page_name p) ".") eqn:H; [|reflexivity].
    rewrite (Hdot eq_refl) in Heq.
    apply (string_app_inv_head "public/blog/") in Heq.
    apply (f_equal String.length) in Heq. rewrite string_length_app in Heq.
    cbn [String.length] in Heq. lia.
  - intros H.
    change ("/blog/" +:+ page_name p) with ("/" +:+ "blog/" +:+ page_name p).
    rewrite (filePath_plain "blog/" (page_name p)); [reflexivity|discriminate|].
    exact (eq_trans Hinc H).
Qed.

Lemma post_link_resolves_witness :
  "public" +:+ filePath (postUrl (mkPage ∅ demo_template "first")) =
  postPath (mkPage ∅ demo_template "first").
Proof. apply (post_link_resolves (mkPage ∅ demo_template "first")). reflexivity. Defined.

(** ** The copy filters of [build] (cli.js, lines 52-60) *)

(** [fs.copy] hands its filter the path of each item with the source
    directory at its front, [templates/...] or [pages/...].  Such a path
    never starts with a dot, so the first test of either filter rejects
    nothing: a file is left out only for its ending, and a file whose name
    starts with a dot is copied to [public/] like any other. *)
Theorem copy_filters_keep_hidden_files (rel : string) :
  templatesFilter ("templates/" +:+ rel) = negb (endsWith ("templates/" +:+ rel) ".html") /\
  pagesFilter ("pages/" +:+ rel) = negb (endsWith ("pages/" +:+ rel) ".md").
Proof. split; reflexivity. Qed.
